(** * ask-spurgeon: the retrieval core, embedded in Rocq

    A shallow embedding of
      - [PDFProcessor.chunk_text]      (src/pdf_processor.py),
      - [VectorDatabase]               (src/vector_db.py),
      - [LLMClient.create_rag_prompt]  (src/llm_client.py),
    with the properties the specification states about them.

    Conventions.  A Python [str] is a [list ascii]; a character is read as a
    code point below 256.  Python integers are [Z].  A function that may raise
    returns a [result]; a method that mutates [self] takes the object and
    returns the object after the call. *)

From Stdlib Require Import ZArith List Ascii String QArith Lia Bool Sorted.
From stdpp Require Import base option list gmap strings.
Import ListNotations.

Local Open Scope Z_scope.

Abbreviation str := (list ascii).

(** A string literal as a Python [str]. *)
Definition s (lit : string) : str := list_ascii_of_string lit.
Arguments s : simpl never.

(** Python's [len], an integer. *)
Definition len {A} (l : list A) : Z := Z.of_nat (length l).

(** ** Python string primitives used by the sources *)

Module PyStr.

(** Index normalisation of a slice bound: a negative bound counts from the
    end, and every bound is clamped to [0, n]. *)
Definition norm_index (n i : Z) : Z :=
  if i <? 0 then Z.max 0 (i + n) else Z.min i n.

(** [text[a:b]]. *)
Definition slice (text : str) (a b : Z) : str :=
  let a' := norm_index (len text) a in
  let b' := norm_index (len text) b in
  take (Z.to_nat (b' - a')) (drop (Z.to_nat a') text).

(** Highest position of [c] in [l], the head of [l] being position [i];
    [-1] when [c] does not occur. *)
Fixpoint rfind_at (c : ascii) (l : str) (i : Z) : Z :=
  match l with
  | [] => -1
  | x :: r =>
      let j := rfind_at c r (i + 1) in
      if 0 <=? j then j else if Ascii.eqb x c then i else -1
  end.

(** [text.rfind(c, a, b)] for a one-character [c]. *)
Definition rfind (text : str) (c : ascii) (a b : Z) : Z :=
  rfind_at c (slice text a b) (norm_index (len text) a).

(** [c.isspace()] on the code points below 256. *)
Definition isspace (c : ascii) : bool :=
  let n := nat_of_ascii c in
  ((9 <=? n) && (n <=? 13) || (28 <=? n) && (n <=? 32)
   || (n =? 133) || (n =? 160))%nat.

Fixpoint lstrip (l : str) : str :=
  match l with
  | [] => []
  | c :: r => if isspace c then lstrip r else l
  end.

Definition rstrip (l : str) : str := rev (lstrip (rev l)).

(** [text.strip()]. *)
Definition strip (l : str) : str := rstrip (lstrip l).

(** Truth value of a string: [if chunk:]. *)
Definition truthy (l : str) : bool :=
  match l with [] => false | _ => true end.

End PyStr.

(** ** The chunker: [PDFProcessor.chunk_text] *)

Module Chunker.
Import PyStr.

(** Lines 91-108: the end of the window that starts at [start]. *)
Definition window_end (text : str) (chunk_size start : Z) : Z :=
  let e := Z.min (start + chunk_size) (len text) in
  if e <? len text then
    let last_period := rfind text "."%char start e in
    let last_exclamation := rfind text "!"%char start e in
    let last_question := rfind text "?"%char start e in
    let sentence_end :=
      Z.max (Z.max last_period last_exclamation) last_question in
    if start <? sentence_end then sentence_end + 1
    else
      let last_space := rfind text " "%char start e in
      if start <? last_space then last_space else e
  else e.

(** Lines 115-119: the next start position. *)
Definition next_start (start e overlap : Z) : Z :=
  let new_start := e - overlap in
  if new_start <=? start then start + 1 else new_start.

(** Lines 110-112: the chunks after the window [start, e) is emitted. *)
Definition emit (text : str) (start e : Z) (chunks : list str) : list str :=
  let chunk := strip (slice text start e) in
  if truthy chunk then chunks ++ [chunk] else chunks.

(** Lines 90-123: the [while] loop, one unit of fuel per iteration.
    [None] means that the fuel ran out before the loop ended. *)
Fixpoint chunk_loop (fuel : nat) (text : str) (chunk_size overlap : Z)
         (start : Z) (chunks : list str) : option (list str) :=
  match fuel with
  | O => None
  | S fuel' =>
      if start <? len text then
        let e := window_end text chunk_size start in
        let chunks' := emit text start e chunks in
        let start' := next_start start e overlap in
        if len text <=? start' then Some chunks'
        else chunk_loop fuel' text chunk_size overlap start' chunks'
      else Some chunks
  end.

(** The windows [(start, end)] of the iterations of the same loop, in
    order: its length is the number of iterations performed. *)
Fixpoint chunk_trace (fuel : nat) (text : str) (chunk_size overlap : Z)
         (start : Z) : option (list (Z * Z)) :=
  match fuel with
  | O => None
  | S fuel' =>
      if start <? len text then
        let e := window_end text chunk_size start in
        let start' := next_start start e overlap in
        if len text <=? start' then Some [(start, e)]
        else
          match chunk_trace fuel' text chunk_size overlap start' with
          | Some ws => Some ((start, e) :: ws)
          | None => None
          end
      else Some []
  end.

(** Lines 84-88 and 125, with explicit fuel. *)
Definition chunk_text_fuel (fuel : nat) (text : str)
           (chunk_size overlap : Z) : option (list str) :=
  if len text <=? chunk_size then Some [text]
  else chunk_loop fuel text chunk_size overlap 0 [].

(** [chunk_text]: the loop never makes more than [len(text)] iterations
    (lemma [chunk_trace_enough_fuel] below), so this fuel is enough and the
    [None] branch is never taken. *)
Definition chunk_text (text : str) (chunk_size overlap : Z) : list str :=
  match chunk_text_fuel (S (length text)) text chunk_size overlap with
  | Some chunks => chunks
  | None => []
  end.

(** The number of loop iterations of a call. *)
Definition iterations (text : str) (chunk_size overlap : Z) : option nat :=
  if len text <=? chunk_size then Some O
  else length <$> chunk_trace (S (length text)) text chunk_size overlap 0.

(** What one window contributes to the output. *)
Definition piece (text : str) (w : Z * Z) : list str :=
  let chunk := strip (slice text w.1 w.2) in
  if truthy chunk then [chunk] else [].

(** What the loop emits for a list of windows. *)
Definition emit_all (text : str) (ws : list (Z * Z)) : list str :=
  fold_left (fun chunks w => emit text w.1 w.2 chunks) ws [].

(** The windows tile [from, to): each starts where the previous one ended
    and none is empty. *)
Fixpoint tiles (ws : list (Z * Z)) (from to : Z) : Prop :=
  match ws with
  | [] => from = to
  | (a, b) :: r => a = from /\ a < b /\ tiles r b to
  end.

(** [chunk] is the substring of [text] that starts at position [p]. *)
Definition occurs_at (text chunk : str) (p : Z) : Prop :=
  0 <= p /\ slice text p (p + len chunk) = chunk.

End Chunker.

(** ** Exceptions *)

Inductive exn := AssertionError | IndexError | KeyError | AttributeError.

(** The outcome of a call that may raise. *)
Inductive result (A : Type) :=
| Ok (a : A)
| Raise (e : exn).
Arguments Ok {A} a.
Arguments Raise {A} e.

(** ** The similarity index: [faiss.IndexFlatIP]

    The library is outside the repository.  The model follows its
    documented behaviour: a flat store of vectors in insertion order,
    exhaustive inner-product search, the best [k] hits first.  Scores are
    exact rationals (rounding to [float32] is left out), equal scores come
    in insertion order, and the index stays on the CPU. *)

Module Faiss.

Definition vector := list Q.

(** A two-dimensional [numpy] array of shape [(n, ncols)]. *)
Record ndarray := { ncols : nat; rows : list vector }.

Record IndexFlatIP := { d : nat; xb : list vector }.

Definition ntotal (ix : IndexFlatIP) : Z := len (xb ix).

(** [faiss.IndexFlatIP(d)]. *)
Definition new_index (dim : nat) : IndexFlatIP := {| d := dim; xb := [] |}.

(** [index.add(x)]: the wrapper asserts [x.shape[1] == self.d]. *)
Definition add (ix : IndexFlatIP) (x : ndarray) : result IndexFlatIP :=
  if (ncols x =? d ix)%nat
  then Ok {| d := d ix; xb := xb ix ++ rows x |}
  else Raise AssertionError.

Definition inner_product (x y : vector) : Q :=
  fold_right Qplus 0%Q (zip_with Qmult x y).

(** The score of every stored vector, with its position. *)
Definition scored (ix : IndexFlatIP) (q : vector) : list (Q * nat) :=
  imap (fun i v => (inner_product q v, i)) (xb ix).

(** Insertion before the first hit whose score is not higher. *)
Fixpoint insert_hit (h : Q * nat) (l : list (Q * nat)) : list (Q * nat) :=
  match l with
  | [] => [h]
  | h' :: r =>
      if Qle_bool h'.1 h.1 then h :: l else h' :: insert_hit h r
  end.

Definition sort_hits (l : list (Q * nat)) : list (Q * nat) :=
  fold_right insert_hit [] l.

(** [index.search(x, k)] for a single query row: the wrapper asserts the
    dimension and [k > 0]; the hits are [(score, position)] pairs. *)
Definition search (ix : IndexFlatIP) (q : vector) (k : Z)
  : result (list (Q * nat)) :=
  if negb (length q =? d ix)%nat then Raise AssertionError
  else if k <=? 0 then Raise AssertionError
  else Ok (take (Z.to_nat k) (sort_hits (scored ix q))).

(** Scores from best to worst. *)
Definition descending (l : list Q) : Prop :=
  StronglySorted (fun x y => (y <= x)%Q) l.

End Faiss.

(** ** The vector database: [VectorDatabase] *)

Module VectorDB.
Import Faiss.

(** The metadata record that the pipeline attaches to a chunk. *)
Record metadata := {
  filename : str;
  filepath : str;
  chunk_id : Z;
  total_chunks : Z;
  chunk_length : Z;
  document_length : Z
}.

Record VectorDatabase := {
  db_path : str;
  embedding_dimension : nat;
  index : option IndexFlatIP;
  documents : list metadata;
  chunks : list str
}.

Definition set_index (db : VectorDatabase) (ix : option IndexFlatIP) :=
  {| db_path := db_path db; embedding_dimension := embedding_dimension db;
     index := ix; documents := documents db; chunks := chunks db |}.

Definition set_chunks (db : VectorDatabase) (cs : list str) :=
  {| db_path := db_path db; embedding_dimension := embedding_dimension db;
     index := index db; documents := documents db; chunks := cs |}.

Definition set_documents (db : VectorDatabase) (ds : list metadata) :=
  {| db_path := db_path db; embedding_dimension := embedding_dimension db;
     index := index db; documents := ds; chunks := chunks db |}.

Definition startswith_sep (b : str) : bool :=
  match b with c :: _ => Ascii.eqb c "/"%char | [] => false end.

Definition endswith_sep (a : str) : bool :=
  match last a with Some c => Ascii.eqb c "/"%char | None => false end.

(** [os.path.join(a, b)]: [b] alone when it is absolute; no separator is
    added after an empty [a] or after one that ends with a separator. *)
Definition path_join (a b : str) : str :=
  if startswith_sep b then b
  else if negb (PyStr.truthy a) || endswith_sep a then a ++ b
  else a ++ "/"%char :: b.

Definition index_path (db : VectorDatabase) : str :=
  path_join (db_path db) (s "faiss.index").
Definition metadata_path (db : VectorDatabase) : str :=
  path_join (db_path db) (s "metadata.json").
Definition chunks_path (db : VectorDatabase) : str :=
  path_join (db_path db) (s "chunks.pkl").

(** [VectorDatabase(db_path, embedding_dimension)]; the default dimension
    is 384. *)
Definition new (path : str) (dim : nat) : VectorDatabase :=
  {| db_path := path; embedding_dimension := dim;
     index := None; documents := []; chunks := [] |}.

Definition default_dimension : nat := 384.

(** [create_index]: the dimension is the one given to the constructor. *)
Definition create_index (db : VectorDatabase) : VectorDatabase :=
  set_index db (Some (new_index (embedding_dimension db))).

(** [add_documents]: the object after the call, and whether it raised. *)
Definition add_documents (db : VectorDatabase) (embeddings : ndarray)
           (new_chunks : list str) (document_metadata : list metadata)
  : VectorDatabase * result unit :=
  let db := match index db with None => create_index db | Some _ => db end in
  match index db with
  | None => (db, Raise AttributeError)
  | Some ix =>
      match add ix embeddings with
      | Raise e => (db, Raise e)
      | Ok ix' =>
          let db := set_index db (Some ix') in
          let db := set_chunks db (chunks db ++ new_chunks) in
          let db := set_documents db (documents db ++ document_metadata) in
          (db, Ok tt)
      end
  end.

Record SearchResult := {
  chunk : str;
  result_metadata : metadata;
  similarity_score : Q;
  rank : Z
}.

(** Lines 100-109: the loop over the hits; [i] is the [enumerate] counter. *)
Fixpoint collect (db : VectorDatabase) (i : Z) (hits : list (Q * nat))
         (results : list SearchResult) : result (list SearchResult) :=
  match hits with
  | [] => Ok results
  | (score, idx) :: rest =>
      if Z.of_nat idx <? len (chunks db) then
        match chunks db !! idx with
        | None => Raise IndexError
        | Some c =>
            match documents db !! idx with
            | None => Raise IndexError
            | Some m =>
                collect db (i + 1) rest
                  (results ++ [{| chunk := c; result_metadata := m;
                                  similarity_score := score;
                                  rank := i + 1 |}])
            end
        end
      else collect db (i + 1) rest results
  end.

(** [search], for a one-dimensional query vector. *)
Definition search (db : VectorDatabase) (query_embedding : vector) (k : Z)
  : result (list SearchResult) :=
  match index db with
  | None => Ok []
  | Some ix =>
      if ntotal ix =? 0 then Ok []
      else
        match Faiss.search ix query_embedding (Z.min k (ntotal ix)) with
        | Raise e => Raise e
        | Ok hits => collect db 0 hits []
        end
  end.

(** *** Persistence *)

(** The unpickled content of [chunks.pkl]: a dictionary that may or may not
    have each of the two keys. *)
Record pickled := {
  p_chunks : option (list str);
  p_documents : option (list metadata)
}.

(** A file, by what its reader makes of it.  [JsonFile j] is a JSON text
    that parses to the dictionary [j]; a JSON text that is no dictionary
    behaves as one without keys.  [Garbage] is any content that no reader
    parses: a truncated or corrupt file. *)
Inductive file :=
| FaissFile (ix : IndexFlatIP)
| JsonFile (j : gmap str Z)
| PickleFile (p : pickled)
| Garbage.

(** The readers; [None] is a raised exception. *)
Definition read_index (f : file) : option IndexFlatIP :=
  match f with FaissFile ix => Some ix | _ => None end.
Definition json_load (f : file) : option (gmap str Z) :=
  match f with JsonFile j => Some j | _ => None end.
Definition pickle_load (f : file) : option pickled :=
  match f with PickleFile p => Some p | _ => None end.

(** [len(set(doc['filename'] for doc in self.documents))]. *)
Definition distinct_filenames (ds : list metadata) : Z :=
  Z.of_nat (size (list_to_set (filename <$> ds) : gset str)).

(** The header that [save] writes to [metadata.json]. *)
Definition header (db : VectorDatabase) : gmap str Z :=
  {[ s "total_documents" := distinct_filenames (documents db);
     s "total_chunks" := len (chunks db);
     s "embedding_dimension" := Z.of_nat (embedding_dimension db) ]}.

(** [save], on a storage where every write succeeds. *)
Definition save (db : VectorDatabase) (fs : gmap str file) : gmap str file :=
  match index db with
  | None => fs
  | Some ix =>
      let fs := <[index_path db := FaissFile ix]> fs in
      let fs := <[metadata_path db := JsonFile (header db)]> fs in
      <[chunks_path db :=
          PickleFile {| p_chunks := Some (chunks db);
                        p_documents := Some (documents db) |}]> fs
  end.

(** [os.path.exists]. *)
Definition exists_ (fs : gmap str file) (path : str) : bool :=
  bool_decide (is_Some (fs !! path)).

(** [load]: the object after the call and the returned flag.  Every
    exception inside the [try] block ends the call with [False], the
    assignments made before it stay. *)
Definition load (db : VectorDatabase) (fs : gmap str file)
  : VectorDatabase * bool :=
  if negb (forallb (exists_ fs)
             [index_path db; metadata_path db; chunks_path db])
  then (db, false)
  else
    match fs !! index_path db ≫= read_index with
    | None => (db, false)
    | Some ix =>
        let db := set_index db (Some ix) in
        match fs !! metadata_path db ≫= json_load with
        | None => (db, false)
        | Some metadata =>
            match fs !! chunks_path db ≫= pickle_load with
            | None => (db, false)
            | Some data =>
                match p_chunks data with
                | None => (db, false)
                | Some cs =>
                    let db := set_chunks db cs in
                    match p_documents data with
                    | None => (db, false)
                    | Some ds =>
                        let db := set_documents db ds in
                        match metadata !! s "total_documents",
                              metadata !! s "total_chunks" with
                        | Some _, Some _ => (db, true)
                        | _, _ => (db, false)
                        end
                    end
                end
            end
        end
    end.

(** [get_stats]. *)
Inductive stats :=
| NoIndexLoaded
| Stats (total_documents total_chunks vectors_in_index : Z)
        (embedding_dimension : nat) (database_path : str).

Definition get_stats (db : VectorDatabase) : stats :=
  match index db with
  | None => NoIndexLoaded
  | Some ix =>
      Stats (distinct_filenames (documents db)) (len (chunks db))
            (ntotal ix) (embedding_dimension db) (db_path db)
  end.

(** The number of stored vectors; none before the index exists. *)
Definition vector_count (db : VectorDatabase) : Z :=
  match index db with None => 0 | Some ix => ntotal ix end.

(** An index state with [n] stored entries: [n] vectors, each with its
    chunk and its metadata. *)
Definition has_entries (db : VectorDatabase) (n : Z) : Prop :=
  vector_count db = n /\ len (chunks db) = n /\ len (documents db) = n.

(** The query has the dimension of the index, if there is one. *)
Definition query_fits (db : VectorDatabase) (q : vector) : Prop :=
  forall ix, index db = Some ix -> length q = d ix.

(** The hit points into the chunk store: the test of line 102. *)
Definition valid_hit (db : VectorDatabase) (h : Q * nat) : Prop :=
  (h.2 < length (chunks db))%nat.

Global Instance valid_hit_dec db h : Decision (valid_hit db h).
Proof. unfold valid_hit. apply _. Defined.

(** The result [r] is the answer built from the hit [h]. *)
Definition answers (db : VectorDatabase) (r : SearchResult) (h : Q * nat)
  : Prop :=
  similarity_score r = h.1
  /\ chunks db !! h.2 = Some (chunk r)
  /\ documents db !! h.2 = Some (result_metadata r).

(** The dimension that [add_documents] checks the vectors against: that of
    the index, or of the index it is about to create. *)
Definition index_dimension (db : VectorDatabase) : nat :=
  match index db with
  | Some ix => d ix
  | None => embedding_dimension db
  end.

(** The states reached from a new object by calls of [add_documents] that
    did not raise, at least one. *)
Inductive reached_by_adds (path : str) (dim : nat)
  : VectorDatabase -> Prop :=
| reached_first embeddings cs ms db' :
    add_documents (new path dim) embeddings cs ms = (db', Ok tt) ->
    reached_by_adds path dim db'
| reached_next db embeddings cs ms db' :
    reached_by_adds path dim db ->
    add_documents db embeddings cs ms = (db', Ok tt) ->
    reached_by_adds path dim db'.

End VectorDB.

(** ** Prompt assembly: [LLMClient.create_rag_prompt] *)

Module LLMClient.
Import VectorDB.

Definition nl : str := ["010"%char].

(** Lines 34-44. *)
Definition system_prompt : str :=
  nl ++ concat (map (fun line => s line ++ nl)
    [ "You are Charles Spurgeon. ";
      "Instructions:";
      "1. Use ONLY the information provided in the context to answer the question";
      "2. If the context doesn't contain enough information to answer the question, demand that the user stay focused on theological matters. ";
      "3. Cite the relevant document names when possible";
      "5. If asked about something not in the context, explain that you can only answer based on the provided documents";
      "6. IMPORTANT: Speak in the first person, as if you were Charles Spurgeon--using a passionate, 19th century preacher's diction. Try to give decisive answers. ";
      "";
      "Context from documents:" ]%string).

(** Line 55: a chunk under its source header. *)
Definition format_chunk (chunk_data : SearchResult) : str :=
  nl ++ s "--- From " ++ filename (result_metadata chunk_data) ++ s " ---"
     ++ nl ++ chunk chunk_data ++ nl.

Section Prompt.

(** [self.count_tokens], the tokenizer of the model. *)
Variable count_tokens : str -> Z.

(** Lines 50-63: the loop over the chunks, with its [break]. *)
Fixpoint add_context (max_context_tokens : Z)
         (relevant_chunks : list SearchResult)
         (context_parts : list str) (total_tokens : Z)
  : list str * Z :=
  match relevant_chunks with
  | [] => (context_parts, total_tokens)
  | chunk_data :: rest =>
      let chunk_context := format_chunk chunk_data in
      let chunk_tokens := count_tokens chunk_context in
      if max_context_tokens <? total_tokens + chunk_tokens
      then (context_parts, total_tokens)
      else add_context max_context_tokens rest
             (context_parts ++ [chunk_context])
             (total_tokens + chunk_tokens)
  end.

(** The context parts and the running total when the loop is left. *)
Definition select_context (query : str)
           (relevant_chunks : list SearchResult) (max_context_tokens : Z)
  : list str * Z :=
  add_context max_context_tokens relevant_chunks []
    (count_tokens (system_prompt ++ query)).

(** Lines 66-71. *)
Definition create_rag_prompt (query : str)
           (relevant_chunks : list SearchResult) (max_context_tokens : Z)
  : str :=
  let context_parts :=
    (select_context query relevant_chunks max_context_tokens).1 in
  let full_context := system_prompt ++ concat context_parts in
  full_context ++ nl ++ nl ++ s "Question: " ++ query
    ++ nl ++ nl ++ s "Answer:".

(** The token cost of each chunk, formatted. *)
Definition costs (relevant_chunks : list SearchResult) : list Z :=
  map (fun c => count_tokens (format_chunk c)) relevant_chunks.

End Prompt.

Definition sum (l : list Z) : Z := fold_right Z.add 0 l.

(** [sub] occurs in [text]. *)
Definition contains (text sub : str) : Prop :=
  exists pre post, text = pre ++ sub ++ post.

End LLMClient.

(** ** Sample data for the examples *)

Module Sample.
Import Faiss VectorDB.

Definition meta (name : string) (i : Z) : metadata :=
  {| filename := s name; filepath := s "./pdfs/" ++ s name; chunk_id := i;
     total_chunks := 2; chunk_length := 5; document_length := 9 |}.

(** Three vectors of dimension 4. *)
Definition three_vectors : ndarray :=
  {| ncols := 4;
     rows := [ [1; 0; 0; 0]%Q; [0; 1; 0; 0]%Q; [1 # 2; 1 # 2; 0; 0]%Q ] |}.

(** Two vectors of dimension 8. *)
Definition wide_vectors : ndarray :=
  {| ncols := 8;
     rows := [ [1; 0; 0; 0; 0; 0; 0; 0]%Q; [0; 1; 0; 0; 0; 0; 0; 0]%Q ] |}.

Definition query : vector := [1; 0; 0; 0]%Q.

Definition three_chunks : list str := [s "alpha"; s "bravo"; s "charlie"].
Definition three_metas : list metadata :=
  [meta "a.pdf" 0; meta "a.pdf" 1; meta "b.pdf" 0].

(** A database of dimension 4 after one call with three entries. *)
Definition db3 : VectorDatabase :=
  (add_documents (new (s "./vector_db") 4) three_vectors
     three_chunks three_metas).1.

(** Three vectors, two chunks, two metadata records. *)
Definition db_short_store : VectorDatabase :=
  (add_documents (new (s "./vector_db") 4) three_vectors
     [s "alpha"; s "bravo"] [meta "a.pdf" 0; meta "a.pdf" 1]).1.

(** Three vectors, two chunks, one metadata record. *)
Definition db_short_metadata : VectorDatabase :=
  (add_documents (new (s "./vector_db") 4) three_vectors
     [s "alpha"; s "bravo"] [meta "a.pdf" 0]).1.

(** The files that [save] writes for [db3], on an empty storage. *)
Definition saved3 : gmap str file := save db3 ∅.

(** The same directory with a corrupt header. *)
Definition corrupt_header : gmap str file :=
  <[metadata_path db3 := Garbage]> saved3.

(** The same directory with a corrupt index file. *)
Definition corrupt_index : gmap str file :=
  <[index_path db3 := Garbage]> saved3.

(** The same directory without the chunk store. *)
Definition missing_chunks : gmap str file :=
  delete (chunks_path db3) saved3.

(** Two ranked chunks, as [search] returns them. *)
Definition ranked : list SearchResult :=
  [ {| chunk := s "alpha"; result_metadata := meta "a.pdf" 0;
       similarity_score := 1; rank := 1 |};
    {| chunk := s "charlie"; result_metadata := meta "b.pdf" 0;
       similarity_score := 1 # 2; rank := 2 |} ].

(** The same directory, the header announcing dimension 8. *)
Definition wrong_header : gmap str file :=
  <[metadata_path db3 :=
      JsonFile (<[s "embedding_dimension" := 8]> (header db3))]> saved3.

End Sample.

(** ** Text extraction: the rest of [PDFProcessor] *)

Module PDFProcessor.
Import PyStr.

Definition newline : ascii := "010"%char.

(** [text.split('\n')]: never an empty list. *)
Fixpoint split_lines (text : str) : list str :=
  match text with
  | [] => [[]]
  | c :: r =>
      if Ascii.eqb c newline then [] :: split_lines r
      else
        match split_lines r with
        | l :: ls => (c :: l) :: ls
        | [] => [[c]]
        end
  end.

(** [sep.join(parts)]. *)
Fixpoint join (sep : str) (parts : list str) : str :=
  match parts with
  | [] => []
  | [x] => x
  | x :: r => x ++ sep ++ join sep r
  end.

(** [re.sub(r'\s+', ' ', text)]: every maximal run of white space becomes
    one space; [in_run] tells that the previous character was white space. *)
Fixpoint sub_spaces (in_run : bool) (text : str) : str :=
  match text with
  | [] => []
  | c :: r =>
      if isspace c
      then (if in_run then sub_spaces true r else " "%char :: sub_spaces true r)
      else c :: sub_spaces false r
  end.

(** Lines 37-41: the stripped lines of more than 10 characters. *)
Definition cleaned_lines (text : str) : list str :=
  List.filter (fun line => 10 <? len line) (map strip (split_lines text)).

(** [_clean_text], lines 31-48. *)
Definition clean_text (text : str) : str :=
  strip (sub_spaces false (join (s " ") (cleaned_lines text))).

(** What [fitz] makes of a file: the text of each page, or [None] when
    opening or reading it raises. *)
Definition pdf := option (list str).

(** [extract_text_from_pdf], lines 11-29: the cleaned text of all pages, or
    the empty string when anything raises. *)
Definition extract_text_from_pdf (file : pdf) : str :=
  match file with
  | Some pages => clean_text (concat pages)
  | None => []
  end.

(** [c.lower()] on the code points below 256. *)
Definition lower_char (c : ascii) : ascii :=
  let n := nat_of_ascii c in
  if ((65 <=? n) && (n <=? 90)
      || (192 <=? n) && (n <=? 222) && negb (n =? 215))%nat
  then ascii_of_nat (n + 32) else c.

Definition lower (text : str) : str := map lower_char text.

(** [text.endswith(suffix)]. *)
Definition endswith (text suffix : str) : bool :=
  bool_decide (drop (length text - length suffix) text = suffix).

(** The record that [process_all_pdfs] builds for a document. *)
Record document := {
  doc_filename : str;
  doc_filepath : str;
  doc_text : str;
  doc_length : Z
}.

(** Lines 62-77: one directory entry; a file without text is left out. *)
Definition process_pdf (pdf_directory : str) (entry : str * pdf)
  : list document :=
  let text := extract_text_from_pdf entry.2 in
  if truthy text
  then [{| doc_filename := entry.1;
           doc_filepath := VectorDB.path_join pdf_directory entry.1;
           doc_text := text;
           doc_length := len text |}]
  else [].

(** [process_all_pdfs], lines 50-80.  [listing] is the content of the
    directory in the order of [os.listdir], [None] when the directory does
    not exist. *)
Definition process_all_pdfs (pdf_directory : str)
           (listing : option (list (str * pdf))) : list document :=
  match listing with
  | None => []
  | Some entries =>
      let pdf_files :=
        List.filter (fun e => endswith (lower e.1) (s ".pdf")) entries in
      flat_map (process_pdf pdf_directory) pdf_files
  end.

(** White space occurs only as single spaces, and not at the ends. *)
Fixpoint single_spaced (text : str) : Prop :=
  match text with
  | c1 :: r =>
      match r with
      | c2 :: _ => ~ (isspace c1 = true /\ isspace c2 = true)
      | [] => True
      end /\ single_spaced r
  | [] => True
  end.

Definition normalized (text : str) : Prop :=
  strip text = text
  /\ Forall (fun c => isspace c = true -> c = " "%char) text
  /\ single_spaced text.

(** A chunk as the loop of [chunk_text] emits it: not empty, no white space
    at either end. *)
Definition trimmed (chunk : str) : Prop := chunk <> [] /\ strip chunk = chunk.

End PDFProcessor.

(** ** The pipeline: [DocumentPipeline] *)

Module DocumentPipeline.
Import Faiss VectorDB PDFProcessor.

(** The values of [config.CHUNK_SIZE] and [config.CHUNK_OVERLAP]. *)
Record config := { CHUNK_SIZE : Z; CHUNK_OVERLAP : Z }.

(** The defaults of [config.py]. *)
Definition default_config : config :=
  {| CHUNK_SIZE := 500; CHUNK_OVERLAP := 50 |}.

(** [x or default] for an optional integer: [None] and [0] are false. *)
Definition or_default (x : option Z) (default : Z) : Z :=
  match x with
  | Some v => if v =? 0 then default else v
  | None => default
  end.

(** Lines 49-67: the chunks of one document, each with its metadata. *)
Definition chunk_document (chunk_size overlap : Z) (doc : document)
  : list (str * metadata) :=
  let doc_chunks := Chunker.chunk_text (doc_text doc) chunk_size overlap in
  imap (fun i chunk =>
          (chunk,
           {| filename := doc_filename doc;
              filepath := doc_filepath doc;
              chunk_id := Z.of_nat i;
              total_chunks := len doc_chunks;
              chunk_length := len chunk;
              document_length := doc_length doc |}))
       doc_chunks.

(** Lines 44-67: [all_chunks] and [chunk_metadata], kept side by side. *)
Definition chunk_documents (chunk_size overlap : Z) (docs : list document)
  : list (str * metadata) :=
  flat_map (chunk_document chunk_size overlap) docs.

(** How a run of [process_and_index_documents] ends.  [ValueError] is what
    the index raises on the one-dimensional empty array that [embed_texts]
    returns for no text. *)
Inductive run_outcome :=
| Indexed
| NoDocuments
| IndexRaised (e : exn)
| ValueError.

(** A preview record of [preview_chunks]. *)
Record preview := {
  preview_index : Z;
  preview_filename : str;
  preview_chunk_id : Z;
  chunk_preview : str;
  preview_chunk_length : Z
}.

(** Line 151: the first 200 characters and an ellipsis, or the chunk. *)
Definition shorten (chunk : str) : str :=
  if 200 <? len chunk then PyStr.slice chunk 0 200 ++ s "..." else chunk.

(** Lines 142-156: the loop of [preview_chunks] over the zipped stores;
    [filename] is [None] for no filter, and an empty name is no filter
    either. *)
Fixpoint preview_loop (filename : option str) (max_chunks : Z) (i : Z)
         (entries : list (str * metadata)) (acc : list preview)
  : list preview :=
  match entries with
  | [] => acc
  | (chunk, m) :: rest =>
      let skip :=
        match filename with
        | Some f => PyStr.truthy f && negb (bool_decide (VectorDB.filename m = f))
        | None => false
        end in
      if skip then preview_loop filename max_chunks (i + 1) rest acc
      else
        let acc' :=
          acc ++ [{| preview_index := i;
                     preview_filename := VectorDB.filename m;
                     preview_chunk_id := chunk_id m;
                     chunk_preview := shorten chunk;
                     preview_chunk_length := len chunk |}] in
        if max_chunks <=? len acc' then acc'
        else preview_loop filename max_chunks (i + 1) rest acc'
  end.

(** [preview_chunks]: the object after the call (an empty chunk store makes
    it load the database first) and the previews. *)
Definition preview_chunks (db : VectorDatabase) (fs : gmap str file)
           (filename : option str) (max_chunks : Z)
  : VectorDatabase * list preview :=
  let '(db, loaded) :=
    match chunks db with
    | [] => load db fs
    | _ => (db, true)
    end in
  if loaded
  then (db, preview_loop filename max_chunks 0
              (zip (chunks db) (documents db)) [])
  else (db, []).

Section Embedding.

(** [self.model.encode(texts, ...)] of the sentence-transformer model, for a
    non-empty list of texts. *)
Variable encode : list str -> ndarray.

(** [process_and_index_documents], lines 23-92: the object and the storage
    after the call, and how it ended.  [listing] is the content of the PDF
    directory, as for [process_all_pdfs]. *)
Definition process_and_index_documents (cfg : config)
           (pdf_dir : str) (listing : option (list (str * pdf)))
           (db : VectorDatabase) (fs : gmap str file)
           (chunk_size chunk_overlap : option Z)
  : VectorDatabase * gmap str file * run_outcome :=
  let chunk_size := or_default chunk_size (CHUNK_SIZE cfg) in
  let chunk_overlap := or_default chunk_overlap (CHUNK_OVERLAP cfg) in
  let docs := process_all_pdfs pdf_dir listing in
  match docs with
  | [] => (db, fs, NoDocuments)
  | _ =>
      let records := chunk_documents chunk_size chunk_overlap docs in
      let all_chunks := records.*1 in
      let chunk_metadata := records.*2 in
      match all_chunks with
      | [] =>
          (match index db with None => create_index db | Some _ => db end,
           fs, ValueError)
      | _ =>
          match add_documents db (encode all_chunks) all_chunks
                  chunk_metadata with
          | (db', Raise e) => (db', fs, IndexRaised e)
          | (db', Ok _) => (db', save db' fs, Indexed)
          end
      end
  end.

(** [search_documents], lines 109-125; [embed_query] is the first row of the
    encoding of the query. *)
Definition search_documents (db : VectorDatabase) (query : str)
           (num_results : Z) : result (list SearchResult) :=
  match index db with
  | None => Ok []
  | Some ix =>
      if ntotal ix =? 0 then Ok []
      else
        match rows (encode [query]) with
        | q :: _ => search db q num_results
        | [] => Raise IndexError
        end
  end.

End Embedding.

End DocumentPipeline.

(** ** Sequences of calls and sample inputs *)

Module Fixtures.
Import Faiss VectorDB PDFProcessor DocumentPipeline.

(** A sequence of [add_documents] calls on one object; it ends at the first
    call that raises. *)
Fixpoint add_all (db : VectorDatabase)
         (calls : list (ndarray * list str * list metadata))
  : VectorDatabase * result unit :=
  match calls with
  | [] => (db, Ok tt)
  | (embeddings, cs, ms) :: rest =>
      match add_documents db embeddings cs ms with
      | (db', Ok _) => add_all db' rest
      | (db', Raise e) => (db', Raise e)
      end
  end.

(** A PDF directory: two files with text, one that cannot be read, one with
    only short lines, and one that is no PDF. *)
Definition listing : list (str * pdf) :=
  [ (s "grace.pdf",
     Some [s "The grace of God is free." ++ [newline] ++ s "12";
           s "It is given to the undeserving. Who can earn it?"]);
    (s "broken.pdf", None);
    (s "notes.txt", Some [s "These are notes, not a sermon."]);
    (s "FAITH.PDF", Some [s "   Faith comes by hearing.   "]);
    (s "blank.pdf", Some [s "page 1" ++ [newline] ++ s "page 2"]) ].

(** A stand-in for the embedding model: four numbers per text. *)
Definition encode4 (texts : list str) : ndarray :=
  {| ncols := 4;
     rows := map (fun t => [inject_Z (len t); 1; 0; 0]%Q) texts |}.

End Fixtures.

(* ================================================================= *)
(** * Properties *)

Module ChunkerExamples.
Import PyStr Chunker.

Example slice_mid : slice (s "hello world") 3 8 = s "lo wo".
Proof. reflexivity. Qed.

Example slice_neg : slice (s "hello world") (-5) 100 = s "world".
Proof. reflexivity. Qed.

Example rfind_hit : rfind (s "a.b.c") "."%char 0 4 = 3.
Proof. reflexivity. Qed.

Example rfind_miss : rfind (s "a.b.c") "."%char 4 5 = -1.
Proof. reflexivity. Qed.

Example strip_both : strip (s "  a b ") = s "a b".
Proof. reflexivity. Qed.

Example chunk_words : chunk_text (s "aaaa bbbb") 6 0 = [s "aaaa"; s "bbbb"].
Proof. reflexivity. Qed.

Example chunk_sentences :
  chunk_text (s "One. Two! Three? Four") 8 2
  = [s "One."; s "e. Two!"; s "o!"; s "! Three?"; s "e? Four"; s "ur"; s "r"].
Proof. vm_compute. reflexivity. Qed.

End ChunkerExamples.

(** ** Facts about the string primitives *)

Module PyStrFacts.
Import PyStr.

Lemma len_nonneg {A} (l : list A) : 0 <= len l.
Proof. unfold len. lia. Qed.

Lemma len_app {A} (l1 l2 : list A) : len (l1 ++ l2) = len l1 + len l2.
Proof. unfold len. rewrite length_app. lia. Qed.

Lemma norm_index_in_range n i : 0 <= i <= n -> norm_index n i = i.
Proof.
  intros H. unfold norm_index.
  destruct (Z.ltb_spec i 0); lia.
Qed.

Lemma slice_in_range (text : str) a b :
  0 <= a -> a <= b -> b <= len text ->
  slice text a b = take (Z.to_nat (b - a)) (drop (Z.to_nat a) text).
Proof.
  intros Ha Hab Hb. unfold slice.
  rewrite !norm_index_in_range by lia. reflexivity.
Qed.

Lemma slice_length (text : str) a b :
  0 <= a -> a <= b -> b <= len text -> len (slice text a b) = b - a.
Proof.
  intros Ha Hab Hb. rewrite slice_in_range by assumption.
  unfold len in *. rewrite length_take, length_drop. lia.
Qed.

(** A slice splits the text in three. *)
Lemma slice_split (text : str) a b :
  0 <= a -> a <= b -> b <= len text ->
  text = take (Z.to_nat a) text ++ slice text a b ++ drop (Z.to_nat b) text.
Proof.
  intros Ha Hab Hb. rewrite slice_in_range by assumption.
  rewrite <- (take_drop (Z.to_nat a) text) at 1. f_equal.
  rewrite <- (take_drop (Z.to_nat (b - a)) (drop (Z.to_nat a) text)) at 1.
  f_equal. rewrite drop_drop. f_equal. lia.
Qed.

Lemma rfind_at_range c l i :
  rfind_at c l i = -1 \/ (i <= rfind_at c l i < i + len l).
Proof.
  revert i. induction l as [|x r IH]; intros i; simpl.
  - left; reflexivity.
  - destruct (IH (i + 1)) as [E | E].
    + rewrite E. simpl. destruct (Ascii.eqb x c).
      * right. unfold len. simpl length. lia.
      * left; reflexivity.
    + destruct (Z.leb_spec 0 (rfind_at c r (i + 1))) as [Hj | Hj].
      * right. unfold len in *. simpl length. lia.
      * destruct (Ascii.eqb x c).
        -- right. unfold len. simpl length. lia.
        -- left; reflexivity.
Qed.

(** [rfind] answers [-1] or a position inside the searched window. *)
Lemma rfind_range (text : str) c a b :
  0 <= a -> a <= b -> b <= len text ->
  rfind text c a b = -1 \/ (a <= rfind text c a b < b).
Proof.
  intros Ha Hab Hb. unfold rfind.
  rewrite (norm_index_in_range _ a) by lia.
  destruct (rfind_at_range c (slice text a b) a) as [E | E]; [left; exact E|].
  right. rewrite slice_length in E by assumption. lia.
Qed.

Lemma lstrip_split (l : str) :
  exists pre, l = pre ++ lstrip l /\ Forall (fun c => isspace c = true) pre.
Proof.
  induction l as [|c r [pre [E F]]]; simpl.
  - exists []. split; [reflexivity | constructor].
  - destruct (isspace c) eqn:Hc.
    + exists (c :: pre). split; [simpl; congruence | constructor; assumption].
    + exists []. split; [reflexivity | constructor].
Qed.

(** [strip] removes a run of white space at each end and nothing else. *)
Lemma strip_split (l : str) :
  exists pre post,
    l = pre ++ strip l ++ post
    /\ Forall (fun c => isspace c = true) pre
    /\ Forall (fun c => isspace c = true) post.
Proof.
  destruct (lstrip_split l) as [pre [E F]].
  destruct (lstrip_split (rev (lstrip l))) as [q [Eq Fq]].
  exists pre, (rev q). repeat split.
  - unfold strip, rstrip. rewrite E at 1. f_equal.
    rewrite <- (rev_involutive (lstrip l)) at 1.
    rewrite Eq at 1. rewrite rev_app_distr. reflexivity.
  - exact F.
  - apply Forall_rev. exact Fq.
Qed.

End PyStrFacts.

(** ** Facts about the chunking loop *)

Module ChunkerFacts.
Import PyStr Chunker PyStrFacts.

Lemma emit_piece text a b chunks :
  emit text a b chunks = chunks ++ piece text (a, b).
Proof.
  unfold emit, piece. simpl.
  destruct (truthy _); [reflexivity | now rewrite app_nil_r].
Qed.

Lemma fold_emit text ws : forall chunks,
  fold_left (fun chunks w => emit text w.1 w.2 chunks) ws chunks
  = chunks ++ flat_map (piece text) ws.
Proof.
  induction ws as [|[a b] r IH]; intros chunks; simpl.
  - now rewrite app_nil_r.
  - rewrite IH, emit_piece. now rewrite <- app_assoc.
Qed.

Lemma emit_all_pieces text ws : emit_all text ws = flat_map (piece text) ws.
Proof. unfold emit_all. now rewrite fold_emit. Qed.

(** The start position moves forward in every iteration, whatever the
    window end and the overlap are. *)
Lemma next_start_gt start e overlap : start < next_start start e overlap.
Proof.
  unfold next_start. destruct (Z.leb_spec (e - overlap) start); lia.
Qed.

Lemma next_start_forced start e overlap :
  e - overlap <= start -> next_start start e overlap = start + 1.
Proof.
  intros H. unfold next_start.
  destruct (Z.leb_spec (e - overlap) start); lia.
Qed.

Lemma next_start_le start e overlap :
  0 <= overlap -> start < e -> next_start start e overlap <= e.
Proof.
  intros Ho He. unfold next_start.
  destruct (Z.leb_spec (e - overlap) start); lia.
Qed.

(** A window is never empty and never runs past the text. *)
Lemma window_end_bounds text chunk_size start :
  0 <= start -> start < len text -> 1 <= chunk_size ->
  start < window_end text chunk_size start <= len text.
Proof.
  intros H0 Hlt Hsz. unfold window_end.
  set (e := Z.min (start + chunk_size) (len text)).
  assert (He : start < e <= len text) by (unfold e; lia).
  destruct (Z.ltb_spec e (len text)) as [Hl | Hl]; [|lia].
  destruct (rfind_range text "."%char start e) as [E1 | E1]; try lia;
  destruct (rfind_range text "!"%char start e) as [E2 | E2]; try lia;
  destruct (rfind_range text "?"%char start e) as [E3 | E3]; try lia;
  destruct (rfind_range text " "%char start e) as [E4 | E4]; try lia;
  repeat match goal with
         | |- context [if ?a <? ?b then _ else _] =>
             destruct (Z.ltb_spec a b)
         end; lia.
Qed.

(** The loop and its trace run in lockstep. *)
Lemma chunk_loop_trace text chunk_size overlap fuel : forall start chunks,
  chunk_loop fuel text chunk_size overlap start chunks
  = (fun ws => chunks ++ flat_map (piece text) ws)
      <$> chunk_trace fuel text chunk_size overlap start.
Proof.
  induction fuel as [|fuel IH]; intros start chunks; simpl; [reflexivity|].
  destruct (start <? len text); simpl; [|now rewrite app_nil_r].
  destruct (len text <=? next_start _ _ _); simpl.
  - rewrite emit_piece. simpl. now rewrite app_nil_r.
  - rewrite IH.
    destruct (chunk_trace fuel text chunk_size overlap _); simpl;
      [|reflexivity].
    rewrite emit_piece, <- app_assoc. reflexivity.
Qed.

(** With more than [len(text) - start] units of fuel the loop ends, after
    at most [len(text) - start] iterations. *)
Lemma chunk_trace_enough_fuel text chunk_size overlap fuel : forall start,
  Z.max 0 (len text - start) < Z.of_nat fuel ->
  exists ws,
    chunk_trace fuel text chunk_size overlap start = Some ws
    /\ len ws <= Z.max 0 (len text - start).
Proof.
  induction fuel as [|fuel IH]; intros start Hf; [lia|]. simpl.
  destruct (Z.ltb_spec start (len text)) as [Hlt | Hge].
  - pose proof (next_start_gt start (window_end text chunk_size start)
                  overlap) as Hgt.
    destruct (Z.leb_spec (len text)
                (next_start start (window_end text chunk_size start)
                   overlap)) as [Hend | Hmore].
    + eexists. split; [reflexivity|]. unfold len at 1. simpl. lia.
    + destruct (IH (next_start start (window_end text chunk_size start)
                      overlap)) as [ws [E L]]; [lia|].
      rewrite E. eexists. split; [reflexivity|].
      unfold len in *. simpl length. lia.
  - exists []. split; [reflexivity|]. unfold len at 1. simpl. lia.
Qed.

(** More fuel does not change the outcome. *)
Lemma chunk_trace_more_fuel text chunk_size overlap fuel : 
  forall fuel' start ws,
  chunk_trace fuel text chunk_size overlap start = Some ws ->
  (fuel <= fuel')%nat ->
  chunk_trace fuel' text chunk_size overlap start = Some ws.
Proof.
  induction fuel as [|fuel IH]; intros fuel' start ws E Hle;
    [discriminate|].
  destruct fuel' as [|fuel']; [lia|]. simpl in *.
  destruct (start <? len text); [|exact E].
  destruct (len text <=? next_start _ _ _); [exact E|].
  destruct (chunk_trace fuel text chunk_size overlap _) as [ws'|] eqn:E';
    [|discriminate].
  rewrite (IH fuel' _ ws' E') by lia. exact E.
Qed.

(** The trace of a whole call, and its relation to the output. *)
Lemma chunk_text_trace text chunk_size overlap :
  chunk_size < len text ->
  exists ws,
    (forall fuel, (length text < fuel)%nat ->
       chunk_trace fuel text chunk_size overlap 0 = Some ws
       /\ chunk_text_fuel fuel text chunk_size overlap
          = Some (emit_all text ws))
    /\ chunk_text text chunk_size overlap = emit_all text ws
    /\ iterations text chunk_size overlap = Some (length ws)
    /\ len ws <= len text.
Proof.
  intros Hlong.
  destruct (chunk_trace_enough_fuel text chunk_size overlap
              (S (length text)) 0) as [ws [E L]];
    [unfold len; lia|].
  assert (Hall : forall fuel, (length text < fuel)%nat ->
       chunk_trace fuel text chunk_size overlap 0 = Some ws
       /\ chunk_text_fuel fuel text chunk_size overlap
          = Some (emit_all text ws)).
  { intros fuel Hf.
    assert (E' := chunk_trace_more_fuel _ _ _ _ fuel _ _ E ltac:(lia)).
    split; [exact E'|]. unfold chunk_text_fuel.
    destruct (Z.leb_spec (len text) chunk_size); [lia|].
    rewrite chunk_loop_trace, E'. simpl. now rewrite emit_all_pieces. }
  exists ws. split; [exact Hall|]. repeat split.
  - unfold chunk_text. now rewrite (proj2 (Hall (S (length text)) ltac:(lia))).
  - unfold iterations. destruct (Z.leb_spec (len text) chunk_size); [lia|].
    now rewrite E.
  - pose proof (len_nonneg text). lia.
Qed.

Lemma chunk_text_short text chunk_size overlap :
  len text <= chunk_size ->
  (forall fuel, chunk_text_fuel fuel text chunk_size overlap = Some [text])
  /\ chunk_text text chunk_size overlap = [text]
  /\ iterations text chunk_size overlap = Some O.
Proof.
  intros Hs. unfold chunk_text, iterations, chunk_text_fuel.
  destruct (Z.leb_spec (len text) chunk_size); [|lia]. auto.
Qed.

(** *** Coverage *)

Lemma slice_lookup (text : str) a b i c :
  0 <= a -> a <= i -> i < b -> b <= len text ->
  text !! Z.to_nat i = Some c ->
  slice text a b !! Z.to_nat (i - a) = Some c.
Proof.
  intros Ha Hai Hib Hb E. rewrite slice_in_range by lia.
  rewrite lookup_take_lt by lia. rewrite lookup_drop.
  replace (Z.to_nat a + Z.to_nat (i - a))%nat with (Z.to_nat i) by lia.
  exact E.
Qed.

Lemma slice_app_mid (l1 m l2 : str) :
  slice (l1 ++ m ++ l2) (len l1) (len l1 + len m) = m.
Proof.
  pose proof (len_nonneg l1). pose proof (len_nonneg m).
  pose proof (len_nonneg l2).
  rewrite slice_in_range by (rewrite ?len_app; lia).
  unfold len. rewrite Nat2Z.id, drop_app_length.
  apply take_app_length'. lia.
Qed.

(** A character of a window that is not white space lies inside the chunk
    that the window emits, and that chunk is not empty. *)
Lemma window_chunk_covers (text : str) a b i c :
  0 <= a -> a <= i -> i < b -> b <= len text ->
  text !! Z.to_nat i = Some c -> isspace c = false ->
  exists p,
    piece text (a, b) = [strip (slice text a b)]
    /\ occurs_at text (strip (slice text a b)) p
    /\ p <= i < p + len (strip (slice text a b)).
Proof.
  intros Ha Hai Hib Hb E Hc.
  pose proof (slice_lookup text a b i c Ha Hai Hib Hb E) as Ew.
  pose proof (slice_split text a b Ha ltac:(lia) Hb) as Et.
  destruct (strip_split (slice text a b)) as [pre [post [Es [Fpre Fpost]]]].
  set (chunk := strip (slice text a b)) in *.
  assert (Hin : (length pre <= Z.to_nat (i - a)
                 < length pre + length chunk)%nat).
  { rewrite Es in Ew.
    destruct (Nat.lt_ge_cases (Z.to_nat (i - a)) (length pre)) as [H1|H1].
    - rewrite lookup_app_l in Ew by exact H1.
      apply list_elem_of_lookup_2 in Ew.
      rewrite Forall_forall in Fpre. rewrite (Fpre _ Ew) in Hc.
      discriminate.
    - split; [exact H1|].
      rewrite lookup_app_r in Ew by exact H1.
      destruct (Nat.lt_ge_cases (Z.to_nat (i - a) - length pre)
                  (length chunk)) as [H2|H2]; [lia|].
      rewrite lookup_app_r in Ew by exact H2.
      apply list_elem_of_lookup_2 in Ew.
      rewrite Forall_forall in Fpost. rewrite (Fpost _ Ew) in Hc.
      discriminate. }
  exists (a + len pre). repeat split.
  - unfold piece. simpl. fold chunk.
    destruct chunk; [simpl in Hin; lia | reflexivity].
  - pose proof (len_nonneg pre). lia.
  - rewrite Et at 1. rewrite Es at 1.
    replace (take (Z.to_nat a) text ++ (pre ++ chunk ++ post)
               ++ drop (Z.to_nat b) text)
      with ((take (Z.to_nat a) text ++ pre) ++ chunk
              ++ (post ++ drop (Z.to_nat b) text))
      by (now rewrite <- !app_assoc).
    replace (a + len pre) with (len (take (Z.to_nat a) text ++ pre)).
    + apply slice_app_mid.
    + rewrite len_app. unfold len. rewrite length_take_le; unfold len in *; lia.
  - unfold len. lia.
  - unfold len. lia.
Qed.

(** The windows of a run leave no gap: every position from [start] on is
    inside one of them. *)
Lemma chunk_trace_covers text chunk_size overlap fuel : 
  0 <= overlap -> 1 <= chunk_size ->
  forall start ws,
  0 <= start ->
  chunk_trace fuel text chunk_size overlap start = Some ws ->
  forall i, start <= i < len text ->
  exists a b, In (a, b) ws /\ 0 <= a /\ a <= i /\ i < b /\ b <= len text.
Proof.
  intros Ho Hsz.
  induction fuel as [|fuel IH]; intros start ws H0 E i Hi; [discriminate|].
  simpl in E.
  destruct (Z.ltb_spec start (len text)) as [Hlt | Hge]; [|lia].
  pose proof (window_end_bounds text chunk_size start H0 Hlt Hsz) as Hw.
  pose proof (next_start_le start _ overlap Ho (proj1 Hw)) as Hn.
  pose proof (next_start_gt start (window_end text chunk_size start)
                overlap) as Hg.
  destruct (Z.leb_spec (len text)
              (next_start start (window_end text chunk_size start)
                 overlap)) as [Hend | Hmore].
  - injection E as <-. exists start, (window_end text chunk_size start).
    split; [left; reflexivity | lia].
  - destruct (chunk_trace fuel text chunk_size overlap _) as [ws'|] eqn:E';
      [|discriminate].
    injection E as <-.
    destruct (Z.lt_ge_cases i (window_end text chunk_size start)).
    + exists start, (window_end text chunk_size start).
      split; [left; reflexivity | lia].
    + destruct (IH (next_start start (window_end text chunk_size start)
                      overlap) ws' ltac:(lia) E' i ltac:(lia))
        as [a [b [Hin Hab]]].
      exists a, b. split; [right; exact Hin | exact Hab].
Qed.

(** Without overlap the windows tile the text. *)
Lemma chunk_trace_tiles text chunk_size fuel :
  1 <= chunk_size ->
  forall start ws,
  0 <= start -> start < len text ->
  chunk_trace fuel text chunk_size 0 start = Some ws ->
  tiles ws start (len text).
Proof.
  intros Hsz.
  induction fuel as [|fuel IH]; intros start ws H0 Hlt E; [discriminate|].
  simpl in E.
  destruct (Z.ltb_spec start (len text)) as [_ | Hge]; [|lia].
  pose proof (window_end_bounds text chunk_size start H0 Hlt Hsz) as Hw.
  assert (Hn : next_start start (window_end text chunk_size start) 0
               = window_end text chunk_size start).
  { unfold next_start.
    destruct (Z.leb_spec (window_end text chunk_size start - 0) start); lia. }
  rewrite Hn in E.
  destruct (Z.leb_spec (len text) (window_end text chunk_size start))
    as [Hend | Hmore].
  - injection E as <-. simpl. repeat split; lia.
  - destruct (chunk_trace fuel text chunk_size 0 _) as [ws'|] eqn:E';
      [|discriminate].
    injection E as <-. simpl. repeat split; [lia|].
    apply IH; [lia | lia | exact E'].
Qed.

End ChunkerFacts.

(** ** The chunker: the specified properties *)

Module ChunkerSpec.
Import PyStr Chunker PyStrFacts ChunkerFacts.

(** C4. For every text and every [chunk_size > overlap >= 0] the call
    terminates: any fuel above [len(text)] yields the same list of chunks.
    The loop makes at most [len(text) + 1] iterations, and the start
    position grows in every iteration, since the next start is forced to
    [start + 1] whenever [end - overlap <= start]. *)
Theorem chunk_text_terminates (text : str) (chunk_size overlap : Z) :
  0 <= overlap -> overlap < chunk_size ->
  exists chunks n,
    (forall fuel, (length text < fuel)%nat ->
       chunk_text_fuel fuel text chunk_size overlap = Some chunks)
    /\ chunk_text text chunk_size overlap = chunks
    /\ iterations text chunk_size overlap = Some n
    /\ Z.of_nat n <= len text + 1
    /\ (forall start e,
          start < next_start start e overlap
          /\ (e - overlap <= start ->
              next_start start e overlap = start + 1)).
Proof.
  intros Ho Hsz.
  assert (Hstep : forall start e,
            start < next_start start e overlap
            /\ (e - overlap <= start ->
                next_start start e overlap = start + 1)).
  { intros start e. split;
      [apply next_start_gt | apply next_start_forced]. }
  destruct (Z.le_gt_cases (len text) chunk_size) as [Hshort | Hlong].
  - destruct (chunk_text_short text chunk_size overlap Hshort)
      as [Hf [Hc Hi]].
    exists [text], O.
    refine (conj (fun fuel _ => Hf fuel)
              (conj Hc (conj Hi (conj _ Hstep)))).
    pose proof (len_nonneg text). lia.
  - destruct (chunk_text_trace text chunk_size overlap Hlong)
      as [ws [Hf [Hc [Hi Hl]]]].
    exists (emit_all text ws), (length ws).
    refine (conj _ (conj Hc (conj Hi (conj _ Hstep)))).
    + intros fuel Hfuel. apply Hf, Hfuel.
    + unfold len in *. lia.
Qed.

Lemma chunk_text_terminates_witness :
  exists chunks n,
    (forall fuel, (length (s "One. Two! Three? Four") < fuel)%nat ->
       chunk_text_fuel fuel (s "One. Two! Three? Four") 8 2 = Some chunks)
    /\ chunk_text (s "One. Two! Three? Four") 8 2 = chunks
    /\ iterations (s "One. Two! Three? Four") 8 2 = Some n
    /\ Z.of_nat n <= len (s "One. Two! Three? Four") + 1
    /\ (forall start e,
          start < next_start start e 2
          /\ (e - 2 <= start -> next_start start e 2 = start + 1)).
Proof.
  apply (chunk_text_terminates (s "One. Two! Three? Four") 8 2); lia.
Defined.

(** C5, as the code has it: a text no longer than [chunk_size] comes back
    as the single chunk [text] itself.  The empty text yields one empty
    chunk, and surrounding white space is kept, although every chunk of
    the loop is stripped and dropped when empty. *)
Theorem chunk_text_short_input_untrimmed :
  chunk_text (s "") 500 50 = [s ""]
  /\ chunk_text (s " a ") 500 50 = [s " a "]
  /\ strip (s " a ") = s "a".
Proof. repeat split; reflexivity. Qed.

(** C6, the claim as stated fails: with [chunk_size = 6] and no overlap the
    text ["aaaa bbbb"] is cut at its space, the space belongs to the trimmed
    text but to no chunk, and the chunks do not add up to the text. *)
Lemma chunk_text_drops_boundary_space :
  let text := s "aaaa bbbb" in
  0 <= 0 /\ 0 < 6
  /\ In " "%char (strip text)
  /\ chunk_text text 6 0 = [s "aaaa"; s "bbbb"]
  /\ ~ (exists chunk, In chunk (chunk_text text 6 0) /\ In " "%char chunk)
  /\ concat (chunk_text text 6 0) <> strip text.
Proof.
  cbv zeta. repeat split; try lia.
  - vm_compute. tauto.
  - intros [chunk [Hin Hsp]]. vm_compute in Hin.
    destruct Hin as [<- | [<- | []]]; vm_compute in Hsp;
      repeat (destruct Hsp as [Hsp | Hsp]; [discriminate Hsp|]);
      exact Hsp.
  - vm_compute. discriminate.
Qed.

(** C6, amended.  For every text and every [chunk_size > overlap >= 0],
    every character of the text that is not white space lies inside a
    returned chunk, at its own position.  Without overlap, and for a text
    longer than [chunk_size], the windows of the loop tile the text and the
    output is the list of the trimmed windows, the empty ones left out:
    only white space at the edge of a window is lost. *)
Theorem chunk_text_covers_nonspace (text : str) (chunk_size overlap : Z) :
  0 <= overlap -> overlap < chunk_size ->
  (forall (i : nat) c,
      text !! i = Some c -> isspace c = false ->
      exists chunk p,
        In chunk (chunk_text text chunk_size overlap)
        /\ occurs_at text chunk p
        /\ p <= Z.of_nat i < p + len chunk)
  /\ (overlap = 0 -> chunk_size < len text ->
      exists ws,
        tiles ws 0 (len text)
        /\ chunk_text text chunk_size overlap = emit_all text ws).
Proof.
  intros Ho Hsz. split.
  - intros i c E Hc.
    pose proof (lookup_lt_Some _ _ _ E) as Hi.
    destruct (Z.le_gt_cases (len text) chunk_size) as [Hshort | Hlong].
    + destruct (chunk_text_short text chunk_size overlap Hshort)
        as [_ [-> _]].
      exists text, 0. repeat split; try lia.
      * left; reflexivity.
      * pose proof (slice_app_mid [] text []) as Hs.
        rewrite app_nil_r in Hs. exact Hs.
      * unfold len. lia.
    + destruct (chunk_text_trace text chunk_size overlap Hlong)
        as [ws [Hf [-> _]]].
      destruct (Hf (S (length text)) ltac:(lia)) as [Et _].
      destruct (chunk_trace_covers text chunk_size overlap _ Ho
                  ltac:(lia) 0 ws ltac:(lia) Et (Z.of_nat i))
        as [a [b [Hin [Ha [Hai [Hib Hb]]]]]]; [unfold len; lia|].
      destruct (window_chunk_covers text a b (Z.of_nat i) c)
        as [p [Hp [Hocc Hpos]]]; try assumption.
      { now rewrite Nat2Z.id. }
      exists (strip (slice text a b)), p. repeat split; try apply Hocc;
        try lia.
      rewrite emit_all_pieces. apply in_flat_map.
      exists (a, b). split; [exact Hin|]. rewrite Hp. left; reflexivity.
  - intros -> Hlong.
    destruct (chunk_text_trace text chunk_size 0 Hlong)
      as [ws [Hf [Hc _]]].
    destruct (Hf (S (length text)) ltac:(lia)) as [Et _].
    exists ws. split; [|exact Hc].
    apply (chunk_trace_tiles text chunk_size (S (length text)));
      try lia. exact Et.
Qed.

Lemma chunk_text_covers_nonspace_witness :
  (exists chunk p,
      In chunk (chunk_text (s "aaaa bbbb") 6 0)
      /\ occurs_at (s "aaaa bbbb") chunk p
      /\ p <= Z.of_nat 5 < p + len chunk)
  /\ (exists ws,
        tiles ws 0 (len (s "aaaa bbbb"))
        /\ chunk_text (s "aaaa bbbb") 6 0 = emit_all (s "aaaa bbbb") ws).
Proof.
  destruct (chunk_text_covers_nonspace (s "aaaa bbbb") 6 0) as [H1 H2];
    [lia | lia |].
  split.
  - apply (H1 5%nat "b"%char); reflexivity.
  - apply H2; reflexivity.
Defined.

End ChunkerSpec.

(** ** Facts about the similarity index *)

Module FaissFacts.
Import Faiss.

Lemma insert_hit_length h l : length (insert_hit h l) = S (length l).
Proof.
  induction l as [|h' r IH]; simpl; [reflexivity|].
  destruct (Qle_bool h'.1 h.1); simpl; [reflexivity | now rewrite IH].
Qed.

Lemma sort_hits_length l : length (sort_hits l) = length l.
Proof.
  induction l as [|h r IH]; simpl; [reflexivity|].
  now rewrite insert_hit_length, IH.
Qed.

Lemma insert_hit_Forall (P : Q * nat -> Prop) h l :
  P h -> Forall P l -> Forall P (insert_hit h l).
Proof.
  intros Hh Hl. induction Hl as [|h' r Hh' Hr IH]; simpl.
  - constructor; [exact Hh | constructor].
  - destruct (Qle_bool h'.1 h.1); repeat constructor; assumption.
Qed.

Lemma sort_hits_Forall (P : Q * nat -> Prop) l :
  Forall P l -> Forall P (sort_hits l).
Proof.
  induction 1 as [|h r Hh Hr IH]; simpl; [constructor|].
  now apply insert_hit_Forall.
Qed.

Lemma insert_hit_sorted h l :
  descending (fst <$> l) -> descending (fst <$> insert_hit h l).
Proof.
  unfold descending. induction l as [|h' r IH]; simpl; intros Hs.
  - repeat constructor.
  - apply StronglySorted_inv in Hs. destruct Hs as [Hr Hall].
    destruct (Qle_bool h'.1 h.1) eqn:Hle; simpl.
    + apply Qle_bool_iff in Hle.
      constructor; [constructor; assumption|].
      constructor; [exact Hle|].
      eapply Forall_impl; [exact Hall|].
      intros y Hy. simpl in Hy. eapply Qle_trans; eassumption.
    + assert (Hlt : (h.1 <= h'.1)%Q).
      { destruct (Qlt_le_dec h.1 h'.1) as [Hlt | Hge].
        - apply Qlt_le_weak, Hlt.
        - apply Qle_bool_iff in Hge. congruence. }
      constructor; [apply IH, Hr|].
      rewrite Forall_fmap. apply insert_hit_Forall; [exact Hlt|].
      rewrite <- Forall_fmap. exact Hall.
Qed.

Lemma sort_hits_sorted l : descending (fst <$> sort_hits l).
Proof.
  induction l as [|h r IH]; simpl; [constructor|].
  apply insert_hit_sorted, IH.
Qed.

Lemma descending_take n l : descending l -> descending (take n l).
Proof.
  unfold descending. intros Hs. revert n.
  induction Hs as [|x l Hl IH Hall]; intros [|n]; simpl;
    try constructor; auto.
  apply Forall_take. exact Hall.
Qed.

Lemma scored_length ix q : length (scored ix q) = length (xb ix).
Proof. unfold scored. apply length_imap. Qed.

Lemma scored_positions ix q :
  Forall (fun h => (h.2 < length (xb ix))%nat) (scored ix q).
Proof.
  apply Forall_lookup. intros i h E. unfold scored in E.
  rewrite list_lookup_imap in E.
  destruct (xb ix !! i) as [v|] eqn:Ev; [|discriminate].
  injection E as <-. simpl. eapply lookup_lt_Some, Ev.
Qed.

(** A search with the right dimension and [0 < k <= ntotal] returns [k]
    hits, best first, each at a stored position. *)
Lemma search_ok ix q k :
  length q = d ix -> 0 < k -> k <= ntotal ix ->
  exists hits,
    search ix q k = Ok hits
    /\ len hits = k
    /\ descending (fst <$> hits)
    /\ Forall (fun h => (h.2 < length (xb ix))%nat) hits.
Proof.
  intros Hd Hk Hn. unfold search.
  rewrite Hd, Nat.eqb_refl. simpl.
  destruct (Z.leb_spec k 0); [lia|].
  eexists. split; [reflexivity|]. repeat split.
  - unfold len, ntotal, len in *.
    rewrite length_take, sort_hits_length, scored_length. lia.
  - rewrite fmap_take. apply descending_take, sort_hits_sorted.
  - apply Forall_take, sort_hits_Forall, scored_positions.
Qed.

(** A search raises nothing but [AssertionError]. *)
Lemma search_raises ix q k e : search ix q k = Raise e -> e = AssertionError.
Proof.
  unfold search. destruct (negb _); [congruence|].
  destruct (k <=? 0); congruence.
Qed.

End FaissFacts.

(** ** Facts about the vector database *)

Module VectorDBFacts.
Import Faiss VectorDB FaissFacts.

Lemma filter_all {A} (P : A -> Prop) `{!forall x, Decision (P x)} l :
  Forall P l -> filter P l = l.
Proof.
  induction 1 as [|x l Hx Hl IH]; [reflexivity|].
  rewrite filter_cons_True by exact Hx. now rewrite IH.
Qed.

Lemma answers_scores db rs hs :
  Forall2 (answers db) rs hs -> similarity_score <$> rs = fst <$> hs.
Proof.
  induction 1 as [|r h rs hs [E _] _ IH]; [reflexivity|].
  rewrite !fmap_cons, E. f_equal. exact IH.
Qed.

(** The loop over the hits when every chunk has its metadata: it keeps the
    hits that point into the chunk store, in order, and drops the others. *)
Lemma collect_guarded db :
  (length (chunks db) <= length (documents db))%nat ->
  forall hits i results,
  exists rs,
    collect db i hits results = Ok (results ++ rs)
    /\ Forall2 (answers db) rs (filter (valid_hit db) hits).
Proof.
  intros Hdocs. induction hits as [|[score idx] rest IH]; intros i results.
  - exists []. simpl. rewrite app_nil_r. split; [reflexivity | constructor].
  - simpl. destruct (Z.ltb_spec (Z.of_nat idx) (len (chunks db))) as [Hv|Hv].
    + assert (Hidx : (idx < length (chunks db))%nat) by (unfold len in Hv; lia).
      destruct (lookup_lt_is_Some_2 (chunks db) idx Hidx) as [c Ec].
      destruct (lookup_lt_is_Some_2 (documents db) idx ltac:(lia))
        as [m Em].
      rewrite Ec, Em.
      destruct (IH (i + 1)
                  (results ++ [{| chunk := c; result_metadata := m;
                                  similarity_score := score;
                                  rank := i + 1 |}])) as [rs [E F]].
      eexists (_ :: rs). split.
      * rewrite E, <- app_assoc. reflexivity.
      * rewrite filter_cons_True by exact Hidx.
        constructor; [|exact F]. repeat split; assumption.
    + destruct (IH (i + 1) results) as [rs [E F]].
      exists rs. split; [exact E|].
      rewrite filter_cons_False; [exact F|].
      unfold valid_hit, len in *. simpl. lia.
Qed.

Lemma filter_length_le {A} (P : A -> Prop) `{!forall x, Decision (P x)}
      (l : list A) : (length (filter P l) <= length l)%nat.
Proof. apply length_filter. Qed.

End VectorDBFacts.

(** ** The vector database: search and add *)

Module VectorDBSpec.
Import Faiss VectorDB FaissFacts VectorDBFacts.

(** C1. On an index state with [n] stored entries, a search with a query
    of the index's dimension and any [k >= n] returns exactly [n] results
    whose scores never increase from one result to the next; with no entry,
    or before any index exists, the result is the empty list and nothing is
    raised. *)
Theorem search_returns_all_sorted
        (db : VectorDatabase) (q : vector) (k n : Z) :
  has_entries db n -> query_fits db q -> n <= k ->
  exists rs,
    search db q k = Ok rs
    /\ len rs = n
    /\ descending (similarity_score <$> rs)
    /\ (n = 0 -> rs = []).
Proof.
  intros [Hv [Hc Hd]] Hq Hk. unfold search, vector_count in *.
  destruct (index db) as [ix|] eqn:Eix.
  2:{ exists []. subst n. repeat split; constructor. }
  destruct (Z.eqb_spec (ntotal ix) 0) as [Hz | Hnz].
  { exists []. repeat split; try constructor. unfold len. simpl. lia. }
  assert (Hpos : 0 < ntotal ix) by (unfold ntotal, len in *; lia).
  rewrite Z.min_r by lia.
  destruct (search_ok ix q (ntotal ix) (Hq ix Eix) Hpos ltac:(lia))
    as [hits [-> [Hlen [Hsorted Hpos']]]].
  destruct (collect_guarded db ltac:(unfold len in *; lia) hits 0 [])
    as [rs [-> F]].
  rewrite filter_all in F.
  2:{ eapply Forall_impl; [exact Hpos'|]. intros h Hh.
      unfold valid_hit, ntotal, len in *. lia. }
  exists rs. simpl. repeat split.
  - apply Forall2_length in F. unfold len in *. lia.
  - rewrite (answers_scores _ _ _ F). exact Hsorted.
  - intros ->. lia.
Qed.

Lemma search_returns_all_sorted_witness :
  exists rs,
    search Sample.db3 Sample.query 5 = Ok rs
    /\ len rs = 3
    /\ descending (similarity_score <$> rs)
    /\ (3 = 0 -> rs = []).
Proof.
  apply (search_returns_all_sorted Sample.db3 Sample.query 5 3).
  - repeat split; reflexivity.
  - intros ix E. vm_compute in E. injection E as <-. reflexivity.
  - lia.
Defined.

(** The scenario of the specification: three vectors of dimension 4 and
    [k = 5] give three results, ranked 1, 2, 3, best score first. *)
Example search_three_of_five :
  exists rs,
    search Sample.db3 Sample.query 5 = Ok rs
    /\ map rank rs = [1; 2; 3]
    /\ map similarity_score rs = [1; 2 # 4; 0]%Q
    /\ map chunk rs = [s "alpha"; s "charlie"; s "bravo"].
Proof. eexists. split; [vm_compute; reflexivity|]. repeat split. Qed.

(** C10, on the code: the test of line 102 ("Ensure index is valid") looks
    at the chunk store only.  With three vectors, two chunks and one
    metadata record the vector count exceeds both stores, the second hit
    passes the test, and the read of its metadata is out of range: the call
    raises [IndexError]. *)
Theorem search_guard_misses_metadata :
  vector_count Sample.db_short_metadata = 3
  /\ len (chunks Sample.db_short_metadata) = 2
  /\ len (documents Sample.db_short_metadata) = 1
  /\ search Sample.db_short_metadata Sample.query 5 = Raise IndexError.
Proof. repeat split; reflexivity. Qed.

(** The guard of [search] where it does protect.  Whenever the metadata
    store is at least as long as the chunk store, [search] never fails with
    an out-of-range access, also when the vector count exceeds both: the
    hits whose position is not in the chunk store are dropped and the
    others are answered in order.  In such a state the result can be
    shorter than [min(k, N)]. *)
Theorem search_drops_invalid_hits :
  (forall (db : VectorDatabase) (q : vector) (k : Z),
      (length (chunks db) <= length (documents db))%nat ->
      search db q k <> Raise IndexError
      /\ forall ix hits,
          index db = Some ix -> ntotal ix <> 0 ->
          Faiss.search ix q (Z.min k (ntotal ix)) = Ok hits ->
          exists rs,
            search db q k = Ok rs
            /\ Forall2 (answers db) rs (filter (valid_hit db) hits))
  /\ (exists db q k rs,
        (length (chunks db) <= length (documents db))%nat
        /\ search db q k = Ok rs
        /\ len rs < Z.min k (vector_count db)).
Proof.
  split.
  - intros db q k Hdocs. unfold search.
    destruct (index db) as [ix|]; [|split; [discriminate|]].
    2:{ intros ix hits E. discriminate. }
    destruct (Z.eqb_spec (ntotal ix) 0) as [Hz | Hnz].
    { split; [discriminate|]. intros ix' hits E Hn. injection E as <-.
      contradiction. }
    destruct (Faiss.search ix q (Z.min k (ntotal ix))) as [hits|e] eqn:Es.
    + destruct (collect_guarded db Hdocs hits 0 []) as [rs [E F]].
      split; [rewrite E; discriminate|].
      intros ix' hits' Eix _ Es'. injection Eix as <-.
      rewrite Es in Es'. injection Es' as <-.
      exists rs. split; [exact E | exact F].
    + pose proof (search_raises _ _ _ _ Es) as ->.
      split; [discriminate|].
      intros ix' hits' Eix _ Es'. injection Eix as <-.
      rewrite Es in Es'. discriminate.
  - exists Sample.db_short_store, Sample.query, 3.
    eexists. split; [vm_compute; lia|].
    split; [vm_compute; reflexivity|]. vm_compute. reflexivity.
Qed.

Lemma search_drops_invalid_hits_witness :
  search Sample.db_short_store Sample.query 3 <> Raise IndexError
  /\ exists ix hits rs,
      index Sample.db_short_store = Some ix
      /\ Faiss.search ix Sample.query (Z.min 3 (ntotal ix)) = Ok hits
      /\ search Sample.db_short_store Sample.query 3 = Ok rs
      /\ Forall2 (answers Sample.db_short_store) rs
           (filter (valid_hit Sample.db_short_store) hits).
Proof.
  destruct (proj1 search_drops_invalid_hits Sample.db_short_store
              Sample.query 3) as [H1 H2]; [vm_compute; lia|].
  split; [exact H1|].
  destruct (H2 {| d := 4; xb := rows Sample.three_vectors |}
              [(1, 0%nat); (2 # 4, 2%nat); (0, 1%nat)]%Q
              eq_refl ltac:(discriminate) eq_refl) as [rs [E F]].
  exists {| d := 4; xb := rows Sample.three_vectors |},
    [(1, 0%nat); (2 # 4, 2%nat); (0, 1%nat)]%Q, rs.
  split; [reflexivity | split; [reflexivity | split; [exact E | exact F]]].
Defined.

End VectorDBSpec.

Module VectorDBAddSpec.
Import Faiss VectorDB.

Lemma add_ok_inv ix x ix' :
  add ix x = Ok ix' -> ix' = {| d := d ix; xb := xb ix ++ rows x |}.
Proof. unfold add. destruct (_ =? _)%nat; congruence. Qed.

(** C3, the claim as stated fails: three vectors with two chunks and one
    metadata record are accepted, and all three stores grow. *)
Lemma add_accepts_mismatched_lengths :
  let db := new (s "./vector_db") 4 in
  let r := add_documents db Sample.three_vectors
             [s "alpha"; s "bravo"] [Sample.meta "a.pdf" 0] in
  len (rows Sample.three_vectors) = 3
  /\ r.2 = Ok tt
  /\ vector_count db = 0 /\ vector_count r.1 = 3
  /\ len (chunks r.1) = 2 /\ len (documents r.1) = 1.
Proof. repeat split; reflexivity. Qed.

(** C3, amended.  [add_documents] does not compare the lengths of its three
    arguments.  Whenever the vectors have the dimension of the index, the
    call succeeds whatever the three lengths are, and each sequence is
    appended to its own store, in input order. *)
Theorem add_appends_each_store
        (db : VectorDatabase) (embeddings : ndarray)
        (cs : list str) (ms : list metadata) :
  ncols embeddings = index_dimension db ->
  exists db',
    add_documents db embeddings cs ms = (db', Ok tt)
    /\ vector_count db' = vector_count db + len (rows embeddings)
    /\ chunks db' = chunks db ++ cs
    /\ documents db' = documents db ++ ms.
Proof.
  intros Hd. unfold add_documents, index_dimension, vector_count in *.
  destruct (index db) as [ix|] eqn:Eix; simpl.
  - rewrite Eix. unfold add. rewrite Hd, Nat.eqb_refl.
    eexists. split; [reflexivity|]. simpl. unfold ntotal. simpl.
    rewrite PyStrFacts.len_app. auto.
  - unfold add. simpl. rewrite Hd, Nat.eqb_refl.
    eexists. split; [reflexivity|]. simpl. unfold ntotal. simpl. auto.
Qed.

Lemma add_appends_each_store_witness :
  exists db',
    add_documents (new (s "./vector_db") 4) Sample.three_vectors
      [s "alpha"; s "bravo"] [Sample.meta "a.pdf" 0] = (db', Ok tt)
    /\ vector_count db'
       = vector_count (new (s "./vector_db") 4)
         + len (rows Sample.three_vectors)
    /\ chunks db' = chunks (new (s "./vector_db") 4) ++ [s "alpha"; s "bravo"]
    /\ documents db'
       = documents (new (s "./vector_db") 4) ++ [Sample.meta "a.pdf" 0].
Proof.
  apply (add_appends_each_store (new (s "./vector_db") 4)
           Sample.three_vectors [s "alpha"; s "bravo"]
           [Sample.meta "a.pdf" 0]).
  reflexivity.
Defined.

(** C9, the claim as stated fails: on an object built with the default
    dimension, a first call with vectors of dimension 4 raises, and the
    index it allocated has dimension 384, not 4. *)
Lemma add_ignores_first_vector_dimension :
  let r := add_documents (new (s "./vector_db") default_dimension)
             Sample.three_vectors Sample.three_chunks Sample.three_metas in
  ncols Sample.three_vectors = 4%nat
  /\ r.2 = Raise AssertionError
  /\ index r.1 = Some (new_index 384).
Proof. repeat split; reflexivity. Qed.

(** C9, amended.  The first call allocates the index with the dimension
    given to the constructor (384 by default), whatever the dimension of
    the vectors is.  In every call, the first one included, vectors of
    another dimension make the whole call fail with the assertion error of
    the similarity library; no entry is added, so the vector count, the
    chunks and the metadata are those of the earlier successful calls. *)
Theorem add_checks_constructor_dimension
        (db : VectorDatabase) (embeddings : ndarray)
        (cs : list str) (ms : list metadata) :
  (index db = None ->
   exists ix,
     index (add_documents db embeddings cs ms).1 = Some ix
     /\ d ix = embedding_dimension db)
  /\ (ncols embeddings <> index_dimension db ->
      exists db',
        add_documents db embeddings cs ms = (db', Raise AssertionError)
        /\ vector_count db' = vector_count db
        /\ chunks db' = chunks db
        /\ documents db' = documents db
        /\ index_dimension db' = index_dimension db).
Proof.
  unfold add_documents, index_dimension, vector_count. split.
  - intros E. rewrite E. simpl. unfold add. simpl.
    destruct (_ =? _)%nat; simpl; eexists; split; reflexivity.
  - intros Hd. destruct (index db) as [ix|] eqn:Eix; simpl.
    + rewrite Eix. unfold add.
      destruct (Nat.eqb_spec (ncols embeddings) (d ix)); [contradiction|].
      eexists. split; [reflexivity|]. rewrite Eix. repeat split.
    + unfold add. simpl.
      destruct (Nat.eqb_spec (ncols embeddings) (embedding_dimension db));
        [contradiction|].
      eexists. split; [reflexivity|]. simpl. repeat split.
Qed.

Lemma add_checks_constructor_dimension_witness :
  (exists ix,
     index (add_documents (new (s "./vector_db") default_dimension)
              Sample.three_vectors Sample.three_chunks
              Sample.three_metas).1 = Some ix
     /\ d ix = embedding_dimension (new (s "./vector_db") default_dimension))
  /\ exists db',
       add_documents (new (s "./vector_db") default_dimension)
         Sample.three_vectors Sample.three_chunks Sample.three_metas
       = (db', Raise AssertionError)
       /\ vector_count db'
          = vector_count (new (s "./vector_db") default_dimension)
       /\ chunks db' = chunks (new (s "./vector_db") default_dimension)
       /\ documents db'
          = documents (new (s "./vector_db") default_dimension)
       /\ index_dimension db'
          = index_dimension (new (s "./vector_db") default_dimension).
Proof.
  pose proof (add_checks_constructor_dimension
                (new (s "./vector_db") default_dimension)
                Sample.three_vectors Sample.three_chunks
                Sample.three_metas) as [H1 H2].
  split; [apply H1; reflexivity|]. apply H2. vm_compute. discriminate.
Defined.

(** The scenario of the specification: dimension 4, then dimension 8. *)
Example add_dimension_4_then_8 :
  let r := add_documents Sample.db3 Sample.wide_vectors
             [s "delta"; s "echo"]
             [Sample.meta "c.pdf" 0; Sample.meta "c.pdf" 1] in
  r.2 = Raise AssertionError
  /\ get_stats r.1 = get_stats Sample.db3
  /\ vector_count r.1 = 3.
Proof. repeat split; reflexivity. Qed.

End VectorDBAddSpec.

(** ** Persistence: save and load *)

Module PersistenceFacts.
Import Faiss VectorDB.

Lemma path_join_inj a b1 b2 :
  startswith_sep b1 = false -> startswith_sep b2 = false ->
  path_join a b1 = path_join a b2 -> b1 = b2.
Proof.
  intros H1 H2. unfold path_join. rewrite H1, H2.
  destruct (negb (PyStr.truthy a) || endswith_sep a); intros E.
  - eapply app_inv_head, E.
  - apply app_inv_head in E. congruence.
Qed.

(** The three artifacts have three different paths. *)
Lemma paths_distinct db :
  index_path db <> metadata_path db
  /\ index_path db <> chunks_path db
  /\ metadata_path db <> chunks_path db.
Proof.
  unfold index_path, metadata_path, chunks_path.
  repeat split; intros E; apply path_join_inj in E;
    try reflexivity; discriminate E.
Qed.

Lemma header_total_documents db :
  header db !! s "total_documents"
  = Some (distinct_filenames (documents db)).
Proof. unfold header. apply lookup_insert_eq. Qed.

Lemma header_total_chunks db :
  header db !! s "total_chunks" = Some (len (chunks db)).
Proof.
  unfold header. rewrite lookup_insert_ne by discriminate.
  apply lookup_insert_eq.
Qed.

(** What a new object reads back from the files of [save]. *)
Lemma load_after_save db fs ix dim :
  index db = Some ix ->
  load (new (db_path db) dim) (save db fs)
  = ({| db_path := db_path db; embedding_dimension := dim;
        index := Some ix; documents := documents db;
        chunks := chunks db |}, true).
Proof.
  intros Eix. destruct (paths_distinct db) as [Him [Hic Hmc]].
  unfold save. rewrite Eix.
  set (fs' := <[chunks_path db := _]> _).
  assert (Ei : fs' !! index_path db = Some (FaissFile ix)).
  { unfold fs'. rewrite lookup_insert_ne by congruence.
    rewrite lookup_insert_ne by congruence. apply lookup_insert_eq. }
  assert (Em : fs' !! metadata_path db = Some (JsonFile (header db))).
  { unfold fs'. rewrite lookup_insert_ne by congruence.
    apply lookup_insert_eq. }
  assert (Ec : fs' !! chunks_path db
               = Some (PickleFile {| p_chunks := Some (chunks db);
                                     p_documents := Some (documents db) |})).
  { unfold fs'. apply lookup_insert_eq. }
  unfold load, exists_.
  change (index_path (new (db_path db) dim)) with (index_path db).
  change (metadata_path (new (db_path db) dim)) with (metadata_path db).
  change (chunks_path (new (db_path db) dim)) with (chunks_path db).
  simpl forallb. rewrite Ei, Em, Ec. simpl.
  rewrite ?bool_decide_eq_true_2 by eauto. simpl.
  change (metadata_path _) with (metadata_path db).
  change (chunks_path _) with (chunks_path db).
  rewrite Em, Ec. simpl.
  rewrite header_total_documents, header_total_chunks. reflexivity.
Qed.

Lemma add_documents_ok_inv db embeddings cs ms db' :
  add_documents db embeddings cs ms = (db', Ok tt) ->
  db_path db' = db_path db
  /\ embedding_dimension db' = embedding_dimension db
  /\ exists ix, index db' = Some ix.
Proof.
  unfold add_documents.
  destruct (index db) as [ix|] eqn:Eix; simpl; rewrite ?Eix.
  - destruct (add ix embeddings); intros E; inversion E; subst; simpl; eauto.
  - destruct (add _ embeddings); intros E; inversion E; subst; simpl; eauto.
Qed.

Lemma reached_by_adds_inv path dim db :
  reached_by_adds path dim db ->
  db_path db = path /\ embedding_dimension db = dim
  /\ exists ix, index db = Some ix.
Proof.
  induction 1 as [e cs ms db' E | db e cs ms db' _ [IHp [IHd _]] E];
    apply add_documents_ok_inv in E; destruct E as [Ep [Ed Ex]].
  - simpl in *. auto.
  - repeat split; [congruence | congruence | exact Ex].
Qed.

End PersistenceFacts.

Module PersistenceSpec.
Import Faiss VectorDB PersistenceFacts.

(** C8, the claim as stated fails: [load] does not read the dimension back
    from the header.  A new object on the same path, built with the default
    dimension, loads the files of a database of dimension 4 and reports
    dimension 384. *)
Lemma round_trip_changes_dimension :
  let db := Sample.db3 in
  let r := load (new (db_path db) default_dimension) (save db ∅) in
  reached_by_adds (s "./vector_db") 4 db
  /\ r.2 = true
  /\ chunks r.1 = chunks db
  /\ get_stats db = Stats 2 3 3 4 (s "./vector_db")
  /\ get_stats r.1 = Stats 2 3 3 384 (s "./vector_db")
  /\ get_stats r.1 <> get_stats db.
Proof.
  cbv zeta. split.
  { eapply reached_first with (embeddings := Sample.three_vectors)
                              (cs := Sample.three_chunks)
                              (ms := Sample.three_metas).
    reflexivity. }
  repeat split; try (vm_compute; reflexivity).
  vm_compute. discriminate.
Qed.

(** C8, amended.  For every state reached by successful calls of
    [add_documents], [save] followed by [load] on a new object built with
    the same path and the same embedding dimension succeeds and gives the
    same statistics, the same chunk texts in the same order and the same
    metadata. *)
Theorem save_load_round_trip
        (path : str) (dim : nat) (db : VectorDatabase)
        (fs : gmap str file) :
  reached_by_adds path dim db ->
  let r := load (new path dim) (save db fs) in
  r.2 = true
  /\ get_stats r.1 = get_stats db
  /\ chunks r.1 = chunks db
  /\ documents r.1 = documents db.
Proof.
  intros Hr. apply reached_by_adds_inv in Hr.
  destruct Hr as [<- [<- [ix Eix]]]. cbv zeta.
  rewrite (load_after_save db fs ix _ Eix). simpl.
  repeat split. unfold get_stats. simpl. rewrite Eix. reflexivity.
Qed.

Lemma save_load_round_trip_witness :
  let r := load (new (s "./vector_db") 4) (save Sample.db3 ∅) in
  r.2 = true
  /\ get_stats r.1 = get_stats Sample.db3
  /\ chunks r.1 = chunks Sample.db3
  /\ documents r.1 = documents Sample.db3.
Proof.
  apply (save_load_round_trip (s "./vector_db") 4 Sample.db3 ∅).
  eapply reached_first with (embeddings := Sample.three_vectors)
                            (cs := Sample.three_chunks)
                            (ms := Sample.three_metas).
  reflexivity.
Defined.

(** C2, the claim as stated fails in three ways.  With a corrupt header
    [load] returns false after it has stored the index it read; with a file
    missing it returns false and leaves a populated object populated; and
    a header that announces another dimension than the index has is loaded
    with success. *)
Lemma load_does_not_fail_closed :
  let fresh := new (s "./vector_db") 4 in
  (let r := load fresh Sample.corrupt_header in
   r.2 = false /\ vector_count r.1 = 3 /\ chunks r.1 = [])
  /\ (let r := load Sample.db3 Sample.missing_chunks in
      r.2 = false /\ vector_count r.1 = 3 /\ len (chunks r.1) = 3)
  /\ (let r := load fresh Sample.wrong_header in
      r.2 = true /\ index_dimension r.1 = 4%nat).
Proof. cbv zeta. repeat split; vm_compute; reflexivity. Qed.

(** C2, amended.  If one of the three artifacts is missing, or the index
    artifact cannot be parsed, [load] returns false and the object is
    exactly as it was before the call (empty, for a new object).  If the
    header or the chunk store cannot be parsed, [load] returns false and
    the stored chunks and metadata are those from before the call.  The
    dimension in the header is not compared with anything: its value has no
    effect on the outcome. *)
Theorem load_failure_modes (db : VectorDatabase) (fs : gmap str file) :
  (exists_ fs (index_path db) = false
   \/ exists_ fs (metadata_path db) = false
   \/ exists_ fs (chunks_path db) = false ->
   load db fs = (db, false))
  /\ (fs !! index_path db ≫= read_index = None ->
      load db fs = (db, false))
  /\ (fs !! metadata_path db ≫= json_load = None
      \/ fs !! chunks_path db ≫= pickle_load = None ->
      (load db fs).2 = false
      /\ chunks (load db fs).1 = chunks db
      /\ documents (load db fs).1 = documents db)
  /\ (forall j h,
        load db (<[metadata_path db :=
                     JsonFile (<[s "embedding_dimension" := h]> j)]> fs)
        = load db (<[metadata_path db := JsonFile j]> fs)).
Proof.
  split; [|split; [|split]].
  - intros H. unfold load. simpl forallb.
    destruct H as [-> | [-> | ->]]; simpl;
      rewrite ?andb_false_r; reflexivity.
  - intros H. unfold load. rewrite H.
    destruct (negb _); reflexivity.
  - intros H. unfold load.
    destruct (negb _); [auto|].
    destruct (fs !! index_path db ≫= read_index); [|auto]. simpl.
    change (metadata_path _) with (metadata_path db).
    change (chunks_path _) with (chunks_path db).
    destruct (fs !! metadata_path db ≫= json_load); [|auto].
    destruct (fs !! chunks_path db ≫= pickle_load); [|auto].
    destruct H; discriminate.
  - intros j h. destruct (paths_distinct db) as [Him [Hic Hmc]].
    unfold load, exists_. simpl forallb.
    rewrite !(lookup_insert_ne _ (metadata_path db) (index_path db))
      by congruence.
    rewrite !(lookup_insert_ne _ (metadata_path db) (chunks_path db))
      by congruence.
    rewrite !lookup_insert_eq.
    rewrite !(bool_decide_eq_true_2 (is_Some (Some _))) by eauto.
    destruct (bool_decide (is_Some (fs !! index_path db)));
      destruct (bool_decide (is_Some (fs !! chunks_path db)));
      simpl; try reflexivity.
    destruct (fs !! index_path db ≫= read_index); [|reflexivity]. simpl.
    change (metadata_path _) with (metadata_path db).
    change (chunks_path _) with (chunks_path db).
    rewrite !lookup_insert_eq.
    rewrite !(lookup_insert_ne _ (metadata_path db) (chunks_path db))
      by congruence.
    simpl.
    destruct (fs !! chunks_path db ≫= pickle_load) as [data|];
      [|reflexivity].
    destruct (p_chunks data); [|reflexivity].
    destruct (p_documents data); [|reflexivity].
    rewrite !lookup_insert_ne by discriminate. reflexivity.
Qed.

Lemma load_failure_modes_witness :
  let fresh := new (s "./vector_db") 4 in
  load fresh Sample.missing_chunks = (fresh, false)
  /\ load fresh Sample.corrupt_index = (fresh, false)
  /\ ((load fresh Sample.corrupt_header).2 = false
      /\ chunks (load fresh Sample.corrupt_header).1 = chunks fresh
      /\ documents (load fresh Sample.corrupt_header).1 = documents fresh).
Proof.
  cbv zeta. split; [|split].
  - apply (proj1 (load_failure_modes (new (s "./vector_db") 4)
                    Sample.missing_chunks)).
    right. right. vm_compute. reflexivity.
  - apply (proj1 (proj2 (load_failure_modes (new (s "./vector_db") 4)
                           Sample.corrupt_index))).
    vm_compute. reflexivity.
  - apply (proj1 (proj2 (proj2 (load_failure_modes
                                  (new (s "./vector_db") 4)
                                  Sample.corrupt_header)))).
    left. vm_compute. reflexivity.
Defined.

End PersistenceSpec.

(** ** Prompt assembly *)

Module LLMClientFacts.
Import VectorDB LLMClient.

Section Loop.
Variable count_tokens : str -> Z.
Variable max_context_tokens : Z.

(** The loop takes a prefix of the chunks: all of its members fit, one
    after the other, and the chunk after it, if any, does not. *)
Lemma add_context_prefix relevant_chunks : forall context_parts total,
  exists n : nat,
    (n <= length relevant_chunks)%nat
    /\ add_context count_tokens max_context_tokens relevant_chunks
         context_parts total
       = (context_parts ++ map format_chunk (take n relevant_chunks),
          total + sum (take n (costs count_tokens relevant_chunks)))
    /\ (forall j : nat, (j < n)%nat ->
          total + sum (take (S j) (costs count_tokens relevant_chunks))
          <= max_context_tokens)
    /\ ((n < length relevant_chunks)%nat ->
          max_context_tokens
          < total + sum (take (S n) (costs count_tokens relevant_chunks))).
Proof.
  induction relevant_chunks as [|c rest IH]; intros parts total.
  - exists O. simpl. rewrite app_nil_r, Z.add_0_r.
    repeat split; try lia. 
  - simpl add_context.
    destruct (Z.ltb_spec max_context_tokens
                (total + count_tokens (format_chunk c))) as [Hover | Hfit].
    + exists O. simpl. rewrite app_nil_r, Z.add_0_r.
      repeat split; try lia.
    + destruct (IH (parts ++ [format_chunk c])
                  (total + count_tokens (format_chunk c)))
        as [n [Hn [E [Hfits Hstop]]]].
      exists (S n). split; [simpl; lia|]. split.
      { rewrite E. simpl. rewrite <- app_assoc. simpl.
        f_equal. lia. }
      split.
      * intros [|j] Hj; simpl.
        -- lia.
        -- specialize (Hfits j ltac:(lia)). simpl in Hfits. lia.
      * intros Hlt. simpl in Hlt. specialize (Hstop ltac:(lia)).
        simpl in *. lia.
Qed.

Lemma costs_nonneg relevant_chunks :
  (forall text, 0 <= count_tokens text) ->
  forall n, 0 <= sum (take n (costs count_tokens relevant_chunks)).
Proof.
  intros Hc. induction relevant_chunks as [|c rest IH]; intros [|n];
    simpl; try lia.
  specialize (IH n). specialize (Hc (format_chunk c)). lia.
Qed.

End Loop.

End LLMClientFacts.

Module LLMClientSpec.
Import VectorDB LLMClient LLMClientFacts.
Import PyStrFacts.

(** C7, the claim as stated fails: the first count is not bounded by the
    budget.  With the length of the text as token count and a budget of
    100, the preamble alone costs more than 100, and the total at the end
    of the loop is above the budget although no chunk was supplied. *)
Lemma prompt_total_exceeds_small_budget :
  (forall text : str, 0 <= len text)
  /\ 100 < len system_prompt
  /\ 100 < (select_context len (s "What is grace?") [] 100).2
  /\ 100 < len (create_rag_prompt len (s "What is grace?") [] 100).
Proof.
  split; [intros text; apply len_nonneg|].
  repeat split; vm_compute; reflexivity.
Qed.

(** C7, amended.  For every query, ranked chunks, budget and token counter
    with non-negative values: the first count is that of the preamble
    followed by the query; the chunks are walked in their order and the
    included ones are a prefix of them, each of which kept the running
    total within the budget; the walk stops for good at the first chunk
    that would exceed it.  The running total never exceeds the budget when
    the first count does not, and no chunk is included when it does.
    Without chunks the prompt still contains the preamble and the query. *)
Theorem create_rag_prompt_budget
        (count_tokens : str -> Z) (query : str)
        (relevant_chunks : list SearchResult) (max_context_tokens : Z) :
  (forall text, 0 <= count_tokens text) ->
  let first := count_tokens (system_prompt ++ query) in
  let cs := costs count_tokens relevant_chunks in
  let r := select_context count_tokens query relevant_chunks
             max_context_tokens in
  exists n : nat,
    (n <= length relevant_chunks)%nat
    /\ r.1 = map format_chunk (take n relevant_chunks)
    /\ r.2 = first + sum (take n cs)
    /\ (forall j : nat, (j < n)%nat ->
          first + sum (take (S j) cs) <= max_context_tokens)
    /\ ((n < length relevant_chunks)%nat ->
          max_context_tokens < first + sum (take (S n) cs))
    /\ (first <= max_context_tokens -> r.2 <= max_context_tokens)
    /\ (max_context_tokens < first -> n = O)
    /\ create_rag_prompt count_tokens query relevant_chunks
         max_context_tokens
       = system_prompt
           ++ concat (map format_chunk (take n relevant_chunks))
           ++ nl ++ nl ++ s "Question: " ++ query
           ++ nl ++ nl ++ s "Answer:"
    /\ contains
         (create_rag_prompt count_tokens query [] max_context_tokens)
         system_prompt
    /\ contains
         (create_rag_prompt count_tokens query [] max_context_tokens)
         query.
Proof.
  intros Hc first cs r.
  destruct (add_context_prefix count_tokens max_context_tokens
              relevant_chunks [] first) as [n [Hn [E [Hfits Hstop]]]].
  fold cs in E, Hfits, Hstop.
  assert (Er : r = (map format_chunk (take n relevant_chunks),
                    first + sum (take n cs))) by exact E.
  exists n. rewrite Er. simpl.
  split; [exact Hn|]. split; [reflexivity|]. split; [reflexivity|].
  split; [exact Hfits|]. split; [exact Hstop|]. split; [|split; [|split]].
  - intros Hfirst. destruct n as [|n]; [simpl; lia|].
    apply (Hfits n). lia.
  - intros Hover. destruct n as [|n]; [reflexivity|].
    specialize (Hfits O ltac:(lia)).
    pose proof (costs_nonneg count_tokens relevant_chunks Hc 1%nat).
    fold cs in H. lia.
  - unfold create_rag_prompt. fold r. rewrite Er. simpl.
    rewrite <- ?app_assoc. reflexivity.
  - split.
    + exists [], (nl ++ nl ++ s "Question: " ++ query
                   ++ nl ++ nl ++ s "Answer:").
      unfold create_rag_prompt, select_context. simpl.
      rewrite ?app_nil_r. rewrite <- ?app_assoc. reflexivity.
    + exists (system_prompt ++ nl ++ nl ++ s "Question: "),
             (nl ++ nl ++ s "Answer:").
      unfold create_rag_prompt, select_context. simpl.
      rewrite ?app_nil_r. rewrite <- ?app_assoc. reflexivity.
Qed.

Lemma create_rag_prompt_budget_witness :
  let first := len (system_prompt ++ s "What is grace?") in
  let cs := costs len Sample.ranked in
  let r := select_context len (s "What is grace?") Sample.ranked 650 in
  exists n : nat,
    (n <= length Sample.ranked)%nat
    /\ r.1 = map format_chunk (take n Sample.ranked)
    /\ r.2 = first + sum (take n cs)
    /\ (forall j : nat, (j < n)%nat -> first + sum (take (S j) cs) <= 650)
    /\ ((n < length Sample.ranked)%nat ->
          650 < first + sum (take (S n) cs))
    /\ (first <= 650 -> r.2 <= 650)
    /\ (650 < first -> n = O)
    /\ create_rag_prompt len (s "What is grace?") Sample.ranked 650
       = system_prompt
           ++ concat (map format_chunk (take n Sample.ranked))
           ++ nl ++ nl ++ s "Question: " ++ s "What is grace?"
           ++ nl ++ nl ++ s "Answer:"
    /\ contains (create_rag_prompt len (s "What is grace?") [] 650)
         system_prompt
    /\ contains (create_rag_prompt len (s "What is grace?") [] 650)
         (s "What is grace?").
Proof.
  apply (create_rag_prompt_budget len (s "What is grace?")
           Sample.ranked 650).
  intros text. unfold len. lia.
Defined.

(** With the length as token count the preamble and the query cost 613 and
    the two sample chunks 26 and 28: a budget of 650 takes the first chunk
    and stops, a budget of 700 takes both. *)
Example select_context_stops_at_second :
  select_context len (s "What is grace?") Sample.ranked 650
  = ([format_chunk {| chunk := s "alpha";
                      result_metadata := Sample.meta "a.pdf" 0;
                      similarity_score := 1; rank := 1 |}], 639)
  /\ (select_context len (s "What is grace?") Sample.ranked 700).2 = 667.
Proof. split; vm_compute; reflexivity. Qed.

End LLMClientSpec.

(* ================================================================= *)
(** * Further properties of the code *)

(** ** More about [strip] *)

Module StripFacts.
Import PyStr PyStrFacts.

Lemma lstrip_head l c : head (lstrip l) = Some c -> isspace c = false.
Proof.
  induction l as [|x r IH]; simpl; [discriminate|].
  destruct (isspace x) eqn:Hx; [exact IH|].
  simpl. intros E. injection E as <-. exact Hx.
Qed.

Lemma lstrip_id l :
  (forall c, head l = Some c -> isspace c = false) -> lstrip l = l.
Proof.
  destruct l as [|x r]; [reflexivity|]. intros H. simpl.
  now rewrite (H x eq_refl).
Qed.

Lemma lstrip_all_space l :
  Forall (fun c => isspace c = true) l -> lstrip l = [].
Proof.
  induction 1 as [|x r Hx _ IH]; simpl; [reflexivity|]. now rewrite Hx.
Qed.

Lemma rstrip_split l :
  exists post, l = rstrip l ++ post /\ Forall (fun c => isspace c = true) post.
Proof.
  destruct (lstrip_split (rev l)) as [q [E F]].
  exists (rev q). split; [|apply Forall_rev, F].
  unfold rstrip. rewrite <- (rev_involutive l) at 1.
  rewrite E at 1. now rewrite rev_app_distr.
Qed.

Lemma strip_head l c : head (strip l) = Some c -> isspace c = false.
Proof.
  unfold strip. destruct (rstrip_split (lstrip l)) as [post [E _]].
  intros H. apply (lstrip_head l). rewrite E.
  destruct (rstrip (lstrip l)); [discriminate | exact H].
Qed.

Lemma strip_last l c : head (rev (strip l)) = Some c -> isspace c = false.
Proof.
  unfold strip, rstrip. rewrite rev_involutive. apply lstrip_head.
Qed.

(** Stripping twice is stripping once. *)
Lemma strip_idem l : strip (strip l) = strip l.
Proof.
  unfold strip at 1.
  rewrite (lstrip_id (strip l)) by apply strip_head.
  unfold rstrip. rewrite (lstrip_id (rev (strip l))) by apply strip_last.
  apply rev_involutive.
Qed.

Lemma strip_length l : len (strip l) <= len l.
Proof.
  destruct (strip_split l) as [pre [post [E _]]].
  rewrite E at 2. rewrite !len_app.
  pose proof (len_nonneg pre). pose proof (len_nonneg post). lia.
Qed.

(** [strip] leaves nothing exactly when the text is all white space. *)
Lemma strip_nil_iff l :
  strip l = [] <-> Forall (fun c => isspace c = true) l.
Proof.
  split.
  - intros E. destruct (strip_split l) as [pre [post [El [Fp Fq]]]].
    rewrite E in El. rewrite El. simpl. apply Forall_app. split; assumption.
  - intros F. unfold strip. now rewrite (lstrip_all_space l F).
Qed.

End StripFacts.

(** ** More about the chunker *)

Module ChunkerMore.
Import PyStr Chunker PyStrFacts ChunkerFacts StripFacts PDFProcessor.

Lemma window_end_le_size text chunk_size start :
  0 <= start -> start < len text -> 1 <= chunk_size ->
  window_end text chunk_size start <= start + chunk_size.
Proof.
  intros H0 Hlt Hsz. unfold window_end.
  set (e := Z.min (start + chunk_size) (len text)).
  assert (He : start < e <= len text /\ e <= start + chunk_size)
    by (unfold e; lia).
  destruct (Z.ltb_spec e (len text)) as [Hl | Hl]; [|lia].
  destruct (rfind_range text "."%char start e) as [E1 | E1]; try lia;
  destruct (rfind_range text "!"%char start e) as [E2 | E2]; try lia;
  destruct (rfind_range text "?"%char start e) as [E3 | E3]; try lia;
  destruct (rfind_range text " "%char start e) as [E4 | E4]; try lia;
  repeat match goal with
         | |- context [if ?a <? ?b then _ else _] =>
             destruct (Z.ltb_spec a b)
         end; lia.
Qed.

(** Every window of a run lies inside the text, is not empty and is no
    longer than [chunk_size]. *)
Lemma chunk_trace_windows text chunk_size overlap fuel :
  1 <= chunk_size ->
  forall start ws,
  0 <= start ->
  chunk_trace fuel text chunk_size overlap start = Some ws ->
  Forall (fun w => 0 <= w.1 /\ w.1 < w.2 /\ w.2 <= len text
                   /\ w.2 - w.1 <= chunk_size) ws.
Proof.
  intros Hsz. induction fuel as [|fuel IH]; intros start ws H0 E;
    [discriminate|].
  simpl in E.
  destruct (Z.ltb_spec start (len text)) as [Hlt | Hge].
  2:{ injection E as <-. constructor. }
  pose proof (window_end_bounds text chunk_size start H0 Hlt Hsz) as Hw.
  pose proof (window_end_le_size text chunk_size start H0 Hlt Hsz) as Hs.
  pose proof (next_start_gt start (window_end text chunk_size start)
                overlap) as Hg.
  destruct (len text <=? next_start _ _ _).
  - injection E as <-. repeat constructor; simpl; lia.
  - destruct (chunk_trace fuel text chunk_size overlap _) as [ws'|] eqn:E';
      [|discriminate].
    injection E as <-. constructor; [simpl; lia|].
    eapply IH; [|exact E']. lia.
Qed.

(** What a window inside the text emits: nothing, or one trimmed chunk that
    is a substring of the window. *)
Lemma piece_substring text a b chunk :
  0 <= a -> a <= b -> b <= len text ->
  In chunk (piece text (a, b)) ->
  trimmed chunk /\ len chunk <= b - a
  /\ exists p, occurs_at text chunk p /\ a <= p /\ p + len chunk <= b.
Proof.
  intros Ha Hab Hb. unfold piece. simpl.
  destruct (truthy (strip (slice text a b))) eqn:Ht; [|intros []].
  intros [<- | []].
  pose proof (slice_split text a b Ha Hab Hb) as Et.
  pose proof (slice_length text a b Ha Hab Hb) as Hl.
  destruct (strip_split (slice text a b)) as [pre [post [Es _]]].
  set (chunk := strip (slice text a b)) in *.
  assert (Hlen : len pre + len chunk + len post = b - a).
  { rewrite <- Hl. pose proof (f_equal len Es) as HE.
    rewrite !len_app in HE. lia. }
  pose proof (len_nonneg pre). pose proof (len_nonneg post).
  pose proof (len_nonneg chunk).
  split; [|split; [lia|]].
  - split; [destruct chunk; [discriminate | discriminate]|].
    apply strip_idem.
  - exists (a + len pre). split; [|lia]. split; [lia|].
    rewrite Et at 1. rewrite Es at 1.
    replace (take (Z.to_nat a) text ++ (pre ++ chunk ++ post)
               ++ drop (Z.to_nat b) text)
      with ((take (Z.to_nat a) text ++ pre) ++ chunk
              ++ (post ++ drop (Z.to_nat b) text))
      by (now rewrite <- !app_assoc).
    replace (a + len pre) with (len (take (Z.to_nat a) text ++ pre)).
    + apply slice_app_mid.
    + rewrite len_app. unfold len.
      rewrite length_take_le; unfold len in *; lia.
Qed.

(** X1. [chunk_text] terminates for every text and every pair of integers
    [chunk_size], [overlap], also outside [chunk_size > overlap >= 0]: the
    forced advance of lines 117-119 makes the loop end within [len(text)]
    iterations. *)
Theorem chunk_text_terminates_always (text : str) (chunk_size overlap : Z) :
  exists chunks n,
    (forall fuel, (length text < fuel)%nat ->
       chunk_text_fuel fuel text chunk_size overlap = Some chunks)
    /\ chunk_text text chunk_size overlap = chunks
    /\ iterations text chunk_size overlap = Some n
    /\ Z.of_nat n <= len text.
Proof.
  destruct (Z.le_gt_cases (len text) chunk_size) as [Hshort | Hlong].
  - destruct (chunk_text_short text chunk_size overlap Hshort)
      as [Hf [Hc Hi]].
    exists [text], O.
    refine (conj (fun fuel _ => Hf fuel) (conj Hc (conj Hi _))).
    apply (len_nonneg text).
  - destruct (chunk_text_trace text chunk_size overlap Hlong)
      as [ws [Hf [Hc [Hi Hl]]]].
    exists (emit_all text ws), (length ws).
    refine (conj _ (conj Hc (conj Hi Hl))).
    intros fuel Hfuel. apply Hf, Hfuel.
Qed.

(** X2. On a text longer than [chunk_size], whatever the parameters are,
    every returned chunk is non-empty and has no white space at either
    end. *)
Theorem chunk_text_long_chunks_trimmed
        (text : str) (chunk_size overlap : Z) :
  chunk_size < len text ->
  Forall trimmed (chunk_text text chunk_size overlap).
Proof.
  intros Hlong.
  destruct (chunk_text_trace text chunk_size overlap Hlong)
    as [ws [_ [-> _]]].
  rewrite emit_all_pieces. apply Forall_forall. intros chunk Hin.
  apply list_elem_of_In, in_flat_map in Hin. destruct Hin as [[a b] [_ Hp]].
  unfold piece in Hp. simpl in Hp.
  destruct (truthy (strip (slice text a b))) eqn:Ht; [|destruct Hp].
  destruct Hp as [<- | []]. split; [|apply strip_idem].
  destruct (strip (slice text a b)); discriminate.
Qed.

Lemma chunk_text_long_chunks_trimmed_witness :
  Forall trimmed (chunk_text (s "One. Two! Three? Four") 8 2).
Proof.
  apply (chunk_text_long_chunks_trimmed (s "One. Two! Three? Four") 8 2).
  reflexivity.
Defined.

(** X3. For [chunk_size >= 1] and any overlap, every returned chunk is a
    substring of the text, at most [chunk_size] characters long. *)
Theorem chunk_text_chunks_bounded_substrings
        (text : str) (chunk_size overlap : Z) :
  1 <= chunk_size ->
  Forall (fun chunk =>
            len chunk <= chunk_size
            /\ exists p, occurs_at text chunk p /\ p + len chunk <= len text)
         (chunk_text text chunk_size overlap).
Proof.
  intros Hsz.
  destruct (Z.le_gt_cases (len text) chunk_size) as [Hshort | Hlong].
  - destruct (chunk_text_short text chunk_size overlap Hshort)
      as [_ [-> _]].
    repeat constructor; [exact Hshort|]. exists 0. split; [|lia].
    split; [lia|]. pose proof (slice_app_mid [] text []) as Hs.
    rewrite app_nil_r in Hs. exact Hs.
  - destruct (chunk_text_trace text chunk_size overlap Hlong)
      as [ws [Hf [-> _]]].
    destruct (Hf (S (length text)) ltac:(lia)) as [Et _].
    pose proof (chunk_trace_windows text chunk_size overlap _ Hsz 0 ws
                  ltac:(lia) Et) as Hws.
    rewrite emit_all_pieces. apply Forall_forall. intros chunk Hin.
    apply list_elem_of_In, in_flat_map in Hin.
    destruct Hin as [[a b] [Hw Hp]].
    rewrite Forall_forall in Hws.
    specialize (Hws (a, b) (proj2 (list_elem_of_In _ _) Hw)).
    simpl in Hws. destruct Hws as [Ha [Hab [Hb Hsize]]].
    destruct (piece_substring text a b chunk Ha ltac:(lia) Hb Hp)
      as [_ [Hlen [p [Hocc [Hap Hpb]]]]].
    split; [lia|]. exists p. split; [exact Hocc | lia].
Qed.

Lemma chunk_text_chunks_bounded_substrings_witness :
  Forall (fun chunk =>
            len chunk <= 8
            /\ exists p, occurs_at (s "One. Two! Three? Four") chunk p
                         /\ p + len chunk <= len (s "One. Two! Three? Four"))
         (chunk_text (s "One. Two! Three? Four") 8 2).
Proof.
  apply (chunk_text_chunks_bounded_substrings
           (s "One. Two! Three? Four") 8 2).
  lia.
Defined.

End ChunkerMore.

(** ** Text cleaning and extraction *)

Module PDFProcessorFacts.
Import PyStr Chunker PyStrFacts StripFacts PDFProcessor.

Lemma single_spaced_app l1 l2 :
  single_spaced (l1 ++ l2) -> single_spaced l1 /\ single_spaced l2.
Proof.
  induction l1 as [|c1 r IH]; simpl; [auto|].
  intros [Hh Hr]. destruct (IH Hr) as [H1 H2]. split; [|exact H2].
  split; [|exact H1]. destruct r as [|c2 r']; [exact I | exact Hh].
Qed.

(** The substitution leaves white space only as single spaces, and none at
    the start when it begins inside a run. *)
Lemma sub_spaces_shape text : forall in_run,
  Forall (fun c => isspace c = true -> c = " "%char) (sub_spaces in_run text)
  /\ single_spaced (sub_spaces in_run text)
  /\ (in_run = true ->
      forall c, head (sub_spaces in_run text) = Some c -> isspace c = false).
Proof.
  induction text as [|x r IH]; intros in_run; simpl.
  - repeat split; [constructor | discriminate].
  - destruct (isspace x) eqn:Hx.
    + destruct (IH true) as [Ha [Hb Hc]]. destruct in_run.
      * repeat split; auto.
      * split; [constructor; auto|]. split; [|discriminate].
        simpl. split; [|exact Hb].
        destruct (sub_spaces true r) as [|c2 r'] eqn:E; [exact I|].
        intros [_ H2]. rewrite (Hc eq_refl c2 eq_refl) in H2. discriminate.
    + destruct (IH false) as [Ha [Hb _]].
      split; [constructor; [congruence | exact Ha]|].
      split.
      * simpl. split; [|exact Hb].
        destruct (sub_spaces false r); [exact I|].
        intros [H1 _]. congruence.
      * intros _ c E. simpl in E. injection E as <-. exact Hx.
Qed.

Lemma strip_keeps_shape text :
  Forall (fun c => isspace c = true -> c = " "%char) text ->
  single_spaced text ->
  normalized (strip text).
Proof.
  intros Ha Hb. destruct (strip_split text) as [pre [post [E _]]].
  rewrite E in Ha, Hb.
  apply Forall_app in Ha. destruct Ha as [_ Ha].
  apply Forall_app in Ha. destruct Ha as [Ha _].
  apply single_spaced_app in Hb. destruct Hb as [_ Hb].
  apply single_spaced_app in Hb. destruct Hb as [Hb _].
  split; [apply strip_idem | split; assumption].
Qed.

Lemma clean_text_normalized text : normalized (clean_text text).
Proof.
  unfold clean_text.
  destruct (sub_spaces_shape (join (s " ") (cleaned_lines text)) false)
    as [Ha [Hb _]].
  now apply strip_keeps_shape.
Qed.

Lemma cleaned_lines_nil_iff text :
  cleaned_lines text = []
  <-> Forall (fun line => len (strip line) <= 10) (split_lines text).
Proof.
  unfold cleaned_lines.
  induction (split_lines text) as [|l ls IH]; simpl.
  - split; [constructor | reflexivity].
  - destruct (Z.ltb_spec 10 (len (strip l))) as [Hlong | Hshort].
    + split; [discriminate|]. intros H. inversion H; subst. lia.
    + rewrite IH. split; [constructor; assumption|].
      intros H. now inversion H.
Qed.

Lemma cleaned_lines_trimmed text :
  Forall (fun line => 10 < len line /\ strip line = line) (cleaned_lines text).
Proof.
  unfold cleaned_lines.
  induction (split_lines text) as [|l ls IH]; simpl; [constructor|].
  destruct (Z.ltb_spec 10 (len (strip l))); [|exact IH].
  constructor; [|exact IH]. split; [assumption | apply strip_idem].
Qed.

Lemma join_head sep l ls c :
  head l = Some c -> head (join sep (l :: ls)) = Some c.
Proof.
  destruct l as [|x r]; [discriminate|]. intros E.
  simpl. destruct ls; exact E.
Qed.

Lemma clean_text_nil_iff_lines text :
  clean_text text = [] <-> cleaned_lines text = [].
Proof.
  split.
  - intros E. pose proof (cleaned_lines_trimmed text) as Ht.
    destruct (cleaned_lines text) as [|l ls] eqn:El; [reflexivity|].
    exfalso. inversion Ht as [|? ? [Hlen Hs] _]; subst.
    destruct l as [|c r]; [unfold len in Hlen; simpl in Hlen; lia|].
    assert (Hc : isspace c = false).
    { apply (strip_head (c :: r)). rewrite Hs. reflexivity. }
    unfold clean_text in E. rewrite El in E.
    apply strip_nil_iff in E.
    pose proof (join_head (s " ") (c :: r) ls c eq_refl) as Hj.
    destruct (join (s " ") ((c :: r) :: ls)) as [|c' rest]; [discriminate|].
    injection Hj as ->. simpl in E. rewrite Hc in E.
    inversion E; subst. congruence.
  - intros E. unfold clean_text. rewrite E. reflexivity.
Qed.

End PDFProcessorFacts.

Module PDFProcessorSpec.
Import PyStr Chunker PyStrFacts StripFacts PDFProcessor PDFProcessorFacts.

(** X4. The text that [_clean_text] returns has no white space at either
    end, and inside it white space occurs only as the space character, never
    two in a row: no newline, tab or run of blanks survives. *)
Theorem clean_text_is_normalized (text : str) :
  strip (clean_text text) = clean_text text
  /\ Forall (fun c => isspace c = true -> c = " "%char) (clean_text text)
  /\ single_spaced (clean_text text)
  /\ ~ In newline (clean_text text).
Proof.
  destruct (clean_text_normalized text) as [Ha [Hb Hc]].
  repeat split; try assumption.
  intros Hin. rewrite Forall_forall in Hb.
  apply list_elem_of_In in Hin. specialize (Hb _ Hin eq_refl).
  discriminate.
Qed.

(** X5. [_clean_text] returns the empty string exactly when no line of the
    input has more than 10 characters once it is stripped: short lines are
    dropped, and one longer line is enough for a non-empty result. *)
Theorem clean_text_empty_iff_short_lines (text : str) :
  clean_text text = []
  <-> Forall (fun line => len (strip line) <= 10) (split_lines text).
Proof.
  rewrite clean_text_nil_iff_lines. apply cleaned_lines_nil_iff.
Qed.

Lemma clean_text_empty_iff_short_lines_witness :
  clean_text (s "page 1" ++ [newline] ++ s "   12   ") = [].
Proof.
  apply (proj2 (clean_text_empty_iff_short_lines
                  (s "page 1" ++ [newline] ++ s "   12   "))).
  repeat constructor; vm_compute; discriminate.
Defined.

(** X6. Cleaning and chunking compose: for every raw text whose cleaned
    form is not empty, and every pair of chunking parameters, each chunk of
    the cleaned text is non-empty and has no white space at either end, on
    the early return as well as in the loop. *)
Theorem chunk_text_of_clean_text_trimmed
        (raw : str) (chunk_size overlap : Z) :
  clean_text raw <> [] ->
  Forall trimmed (chunk_text (clean_text raw) chunk_size overlap).
Proof.
  intros Hne.
  destruct (Z.le_gt_cases (len (clean_text raw)) chunk_size)
    as [Hshort | Hlong].
  - destruct (ChunkerFacts.chunk_text_short _ chunk_size overlap Hshort)
      as [_ [-> _]].
    repeat constructor; [exact Hne|].
    apply (clean_text_normalized raw).
  - apply Forall_forall. intros chunk Hin.
    destruct (ChunkerFacts.chunk_text_trace _ chunk_size overlap Hlong)
      as [ws [_ [E _]]].
    rewrite E, ChunkerFacts.emit_all_pieces in Hin.
    apply list_elem_of_In, in_flat_map in Hin.
    destruct Hin as [[a b] [_ Hp]].
    unfold piece in Hp. simpl in Hp.
    destruct (truthy (strip (slice (clean_text raw) a b))) eqn:Ht;
      [|destruct Hp].
    destruct Hp as [<- | []]. split; [|apply strip_idem].
    destruct (strip (slice (clean_text raw) a b)); discriminate.
Qed.

Lemma chunk_text_of_clean_text_trimmed_witness :
  Forall trimmed
    (chunk_text (clean_text (s "  The grace of God  is free. ")) 12 2).
Proof.
  apply (chunk_text_of_clean_text_trimmed
           (s "  The grace of God  is free. ") 12 2).
  vm_compute. discriminate.
Defined.

(** X7. Every document that [process_all_pdfs] returns has a non-empty,
    cleaned text, a [length] field equal to the length of that text, the
    name of a directory entry that ends in ".pdf" whatever the case, and the
    path of that entry in the directory; entries whose extraction raises or
    yields no text are left out, and a missing directory gives no document. *)
Theorem process_all_pdfs_documents
        (pdf_directory : str) (listing : option (list (str * pdf))) :
  Forall (fun doc =>
            doc_text doc <> []
            /\ normalized (doc_text doc)
            /\ doc_length doc = len (doc_text doc)
            /\ endswith (lower (doc_filename doc)) (s ".pdf") = true
            /\ doc_filepath doc
               = VectorDB.path_join pdf_directory (doc_filename doc)
            /\ exists entries file,
                 listing = Some entries
                 /\ In (doc_filename doc, file) entries
                 /\ doc_text doc = extract_text_from_pdf file)
         (process_all_pdfs pdf_directory listing)
  /\ process_all_pdfs pdf_directory None = [].
Proof.
  split; [|reflexivity].
  destruct listing as [entries|]; [|constructor]. simpl.
  apply Forall_forall. intros doc Hin.
  apply list_elem_of_In, in_flat_map in Hin.
  destruct Hin as [[name file] [He Hd]].
  apply filter_In in He. destruct He as [He Hpdf]. simpl in Hpdf.
  unfold process_pdf in Hd. simpl in Hd.
  destruct (truthy (extract_text_from_pdf file)) eqn:Ht; [|destruct Hd].
  destruct Hd as [<- | []]. simpl.
  split; [destruct (extract_text_from_pdf file); discriminate|].
  split.
  { destruct file as [pages|]; simpl in *; [|discriminate].
    apply clean_text_normalized. }
  repeat split; try assumption.
  exists entries, file. auto.
Qed.

End PDFProcessorSpec.

(** ** More about the vector database *)

Module VectorDBMore.
Import Faiss VectorDB FaissFacts VectorDBFacts PersistenceFacts Fixtures.
Import PyStrFacts.

(** The loop over hits that all point into the stores: one result per hit,
    in order, ranked from [i + 1] on. *)
Lemma collect_all_valid db :
  (length (chunks db) <= length (documents db))%nat ->
  forall hits i results,
  Forall (valid_hit db) hits ->
  exists rs,
    collect db i hits results = Ok (results ++ rs)
    /\ Forall2 (answers db) rs hits
    /\ (forall (j : nat) r, rs !! j = Some r -> rank r = i + 1 + Z.of_nat j).
Proof.
  intros Hdocs. induction hits as [|[score idx] rest IH];
    intros i results Hvalid.
  - exists []. simpl. rewrite app_nil_r. repeat split; [constructor|].
    intros j r E. destruct j; discriminate.
  - inversion Hvalid as [|? ? Hv Hrest]; subst. unfold valid_hit in Hv.
    simpl in Hv. simpl.
    destruct (Z.ltb_spec (Z.of_nat idx) (len (chunks db))) as [_|Hge];
      [|unfold len in Hge; lia].
    destruct (lookup_lt_is_Some_2 (chunks db) idx Hv) as [c Ec].
    destruct (lookup_lt_is_Some_2 (documents db) idx ltac:(lia)) as [m Em].
    rewrite Ec, Em.
    destruct (IH (i + 1)
                (results ++ [{| chunk := c; result_metadata := m;
                                similarity_score := score;
                                rank := i + 1 |}]) Hrest)
      as [rs [E [F R]]].
    eexists (_ :: rs). split; [rewrite E, <- app_assoc; reflexivity|].
    split; [constructor; [repeat split; assumption | exact F]|].
    intros [|j] r Hr; simpl in Hr.
    + injection Hr as <-. simpl. lia.
    + rewrite (R j r Hr). lia.
Qed.

Lemma search_ranked (db : VectorDatabase) (q : vector) (k n : Z) :
  has_entries db n -> query_fits db q -> 0 < k ->
  exists rs,
    search db q k = Ok rs
    /\ len rs = Z.min k n
    /\ descending (similarity_score <$> rs)
    /\ (forall (j : nat) r, rs !! j = Some r ->
          rank r = Z.of_nat j + 1
          /\ exists idx : nat,
               chunks db !! idx = Some (chunk r)
               /\ documents db !! idx = Some (result_metadata r)).
Proof.
  intros [Hv [Hc Hd]] Hq Hk. unfold search, vector_count in *.
  destruct (index db) as [ix|] eqn:Eix.
  2:{ exists []. subst n. split; [reflexivity|].
      split; [unfold len; simpl; lia|]. split; [constructor|].
      intros j r E. destruct j; discriminate. }
  destruct (Z.eqb_spec (ntotal ix) 0) as [Hz | Hnz].
  { exists []. split; [reflexivity|].
    split; [unfold len; simpl; lia|]. split; [constructor|].
    intros j r E. destruct j; discriminate. }
  assert (Hpos : 0 < ntotal ix) by (unfold ntotal, len in *; lia).
  destruct (search_ok ix q (Z.min k (ntotal ix)) (Hq ix Eix)
              ltac:(lia) ltac:(lia))
    as [hits [-> [Hlen [Hsorted Hpos']]]].
  destruct (collect_all_valid db ltac:(unfold len in *; lia) hits 0 [])
    as [rs [-> [F R]]].
  { eapply Forall_impl; [exact Hpos'|]. intros h Hh.
    unfold valid_hit, ntotal, len in *. lia. }
  exists rs. simpl. split; [reflexivity|]. split; [|split].
  - apply Forall2_length in F. unfold len in *. lia.
  - rewrite (answers_scores _ _ _ F). exact Hsorted.
  - intros j r Hr. split; [rewrite (R j r Hr); lia|].
    destruct (Forall2_lookup_l _ _ _ _ _ F Hr) as [h [_ [_ [Hc' Hd']]]].
    exists h.2. split; assumption.
Qed.

(** X8. On an index state with [n] aligned entries, a search with a query
    of the index's dimension and any [k > 0] returns exactly [min(k, n)]
    results, best score first, ranked 1, 2, 3, ... without gaps, each made of
    the chunk and the metadata stored at one and the same position. *)
Theorem search_returns_min_k_ranked
        (db : VectorDatabase) (q : vector) (k n : Z) :
  has_entries db n -> query_fits db q -> 0 < k ->
  exists rs,
    search db q k = Ok rs
    /\ len rs = Z.min k n
    /\ descending (similarity_score <$> rs)
    /\ (forall (j : nat) r, rs !! j = Some r ->
          rank r = Z.of_nat j + 1
          /\ exists idx : nat,
               chunks db !! idx = Some (chunk r)
               /\ documents db !! idx = Some (result_metadata r)).
Proof. apply search_ranked. Qed.

Lemma search_returns_min_k_ranked_witness :
  exists rs,
    search Sample.db3 Sample.query 2 = Ok rs
    /\ len rs = Z.min 2 3
    /\ descending (similarity_score <$> rs)
    /\ (forall (j : nat) r, rs !! j = Some r ->
          rank r = Z.of_nat j + 1
          /\ exists idx : nat,
               chunks Sample.db3 !! idx = Some (chunk r)
               /\ documents Sample.db3 !! idx = Some (result_metadata r)).
Proof.
  apply (search_returns_min_k_ranked Sample.db3 Sample.query 2 3).
  - repeat split; reflexivity.
  - intros ix E. vm_compute in E. injection E as <-. reflexivity.
  - lia.
Defined.

Lemma add_documents_ok_stores db embeddings cs ms db' :
  add_documents db embeddings cs ms = (db', Ok tt) ->
  vector_count db' = vector_count db + len (rows embeddings)
  /\ chunks db' = chunks db ++ cs
  /\ documents db' = documents db ++ ms.
Proof.
  unfold add_documents, vector_count.
  destruct (index db) as [ix|] eqn:Eix; simpl; rewrite ?Eix; unfold add.
  - destruct (_ =? _)%nat; intros E; inversion E; subst; simpl.
    unfold ntotal. simpl. rewrite len_app. auto.
  - simpl. destruct (_ =? _)%nat; intros E; inversion E; subst; simpl.
    unfold ntotal. simpl. auto.
Qed.

Lemma add_all_aligned calls : forall db n db',
  has_entries db n ->
  Forall (fun call : ndarray * list str * list metadata =>
            length (rows call.1.1) = length call.1.2
            /\ length call.2 = length call.1.2) calls ->
  add_all db calls = (db', Ok tt) ->
  has_entries db' (n + len (concat (map (fun call => call.1.2) calls)))
  /\ chunks db' = chunks db ++ concat (map (fun call => call.1.2) calls)
  /\ documents db' = documents db ++ concat (map snd calls).
Proof.
  induction calls as [|[[e cs] ms] rest IH]; intros db n db' Hn Hall E.
  - simpl in E. injection E as <-. simpl. rewrite !app_nil_r.
    unfold len at 1. simpl. rewrite Z.add_0_r. auto.
  - inversion Hall as [|? ? [H1 H2] Hrest]; subst. simpl in H1, H2.
    simpl in E.
    destruct (add_documents db e cs ms) as [db1 [[]|x]] eqn:Ea;
      [|discriminate].
    apply add_documents_ok_stores in Ea. destruct Ea as [Ev [Ec Ed]].
    destruct Hn as [Hv [Hc Hd]].
    assert (Hn1 : has_entries db1 (n + len cs)).
    { repeat split.
      - rewrite Ev. unfold len in *. lia.
      - rewrite Ec, len_app. lia.
      - rewrite Ed, len_app. unfold len in *. lia. }
    destruct (IH db1 _ db' Hn1 Hrest E) as [Hn' [Hc' Hd']].
    simpl. rewrite len_app. split.
    + replace (n + (len cs + len (concat (map (fun call => call.1.2) rest))))
        with (n + len cs + len (concat (map (fun call => call.1.2) rest)))
        by lia.
      exact Hn'.
    + rewrite Hc', Hd', Ec, Ed, <- !app_assoc. auto.
Qed.

(** X9. Starting from a new object, any sequence of successful
    [add_documents] calls that each bring as many chunks and metadata
    records as vectors leaves the three stores aligned: the vector count
    equals the number of chunks and of metadata records, and the chunks and
    the metadata are those of the calls, in call order. *)
Theorem add_sequence_keeps_stores_aligned
        (path : str) (dim : nat)
        (calls : list (ndarray * list str * list metadata))
        (db' : VectorDatabase) :
  Forall (fun call : ndarray * list str * list metadata =>
            length (rows call.1.1) = length call.1.2
            /\ length call.2 = length call.1.2) calls ->
  add_all (new path dim) calls = (db', Ok tt) ->
  has_entries db' (len (chunks db'))
  /\ chunks db' = concat (map (fun call => call.1.2) calls)
  /\ documents db' = concat (map snd calls).
Proof.
  intros Hall E.
  destruct (add_all_aligned calls (new path dim) 0 db') as [Hn [Hc Hd]];
    try assumption.
  { repeat split. }
  simpl in Hc, Hd. split; [|split; assumption].
  rewrite Hc. exact Hn.
Qed.

Lemma add_sequence_keeps_stores_aligned_witness :
  let db' :=
    (add_all (new (s "./vector_db") 4)
       [ (Sample.three_vectors, Sample.three_chunks, Sample.three_metas);
         (Sample.three_vectors, Sample.three_chunks, Sample.three_metas) ]).1
  in
  has_entries db' (len (chunks db'))
  /\ chunks db' = Sample.three_chunks ++ Sample.three_chunks
  /\ documents db' = Sample.three_metas ++ Sample.three_metas.
Proof.
  cbv zeta.
  destruct (add_sequence_keeps_stores_aligned (s "./vector_db") 4
     [ (Sample.three_vectors, Sample.three_chunks, Sample.three_metas);
       (Sample.three_vectors, Sample.three_chunks, Sample.three_metas) ]
     (add_all (new (s "./vector_db") 4)
       [ (Sample.three_vectors, Sample.three_chunks, Sample.three_metas);
         (Sample.three_vectors, Sample.three_chunks, Sample.three_metas) ]).1)
    as [H1 [H2 H3]].
  - repeat constructor.
  - reflexivity.
  - split; [exact H1|]. split; [exact H2 | exact H3].
Defined.

End VectorDBMore.

(** ** More about persistence and statistics *)

Module PersistenceMore.
Import Faiss VectorDB PersistenceFacts.
Import PyStrFacts.



Lemma load_paths db fs :
  db_path (load db fs).1 = db_path db
  /\ embedding_dimension (load db fs).1 = embedding_dimension db.
Proof.
  unfold load. repeat case_match; simpl; auto.
Qed.

Lemma load_true_iff
      (db : VectorDatabase) (fs : gmap str file) (db' : VectorDatabase) :
  load db fs = (db', true)
  <-> exists ix j cs ds,
        fs !! index_path db = Some (FaissFile ix)
        /\ fs !! metadata_path db = Some (JsonFile j)
        /\ is_Some (j !! s "total_documents")
        /\ is_Some (j !! s "total_chunks")
        /\ fs !! chunks_path db
           = Some (PickleFile {| p_chunks := Some cs;
                                 p_documents := Some ds |})
        /\ db' = {| db_path := db_path db;
                    embedding_dimension := embedding_dimension db;
                    index := Some ix; documents := ds; chunks := cs |}.
Proof.
  split.
  - unfold load. simpl forallb.
    destruct (fs !! index_path db) as [[ix| | |]|] eqn:Ei;
      simpl; try (destruct (negb _); discriminate).
    change (metadata_path _) with (metadata_path db).
    change (chunks_path _) with (chunks_path db).
    destruct (fs !! metadata_path db) as [[|j| |]|] eqn:Em;
      simpl; try (destruct (negb _); discriminate).
    destruct (fs !! chunks_path db) as [[| |[[cs|] [ds|]]|]|] eqn:Ec;
      simpl; try (destruct (negb _); discriminate).
    destruct (j !! s "total_documents") as [td|] eqn:Etd;
      [|destruct (negb _); discriminate].
    destruct (j !! s "total_chunks") as [tc|] eqn:Etc;
      [|destruct (negb _); discriminate].
    destruct (negb _); [discriminate|].
    intros E. injection E as <-.
    exists ix, j, cs, ds. repeat split; eauto.
  - intros [ix [j [cs [ds [Ei [Em [[td Etd] [[tc Etc] [Ec ->]]]]]]]]].
    unfold load, exists_. simpl forallb. rewrite Ei, Em, Ec. simpl.
    rewrite ?bool_decide_eq_true_2 by eauto. simpl.
    change (metadata_path _) with (metadata_path db).
    change (chunks_path _) with (chunks_path db).
    rewrite Em, Ec. simpl. rewrite Etd, Etc. reflexivity.
Qed.

(** X11. [load] returns true exactly when the index file parses, the header
    parses to a dictionary with the keys [total_documents] and
    [total_chunks], and the chunk store parses to a dictionary with the keys
    [chunks] and [documents]; the object then holds the index, the chunks
    and the metadata of the files, with its own path and dimension. *)
Theorem load_succeeds_iff
        (db : VectorDatabase) (fs : gmap str file) (db' : VectorDatabase) :
  load db fs = (db', true)
  <-> exists ix j cs ds,
        fs !! index_path db = Some (FaissFile ix)
        /\ fs !! metadata_path db = Some (JsonFile j)
        /\ is_Some (j !! s "total_documents")
        /\ is_Some (j !! s "total_chunks")
        /\ fs !! chunks_path db
           = Some (PickleFile {| p_chunks := Some cs;
                                 p_documents := Some ds |})
        /\ db' = {| db_path := db_path db;
                    embedding_dimension := embedding_dimension db;
                    index := Some ix; documents := ds; chunks := cs |}.
Proof. apply load_true_iff. Qed.

Lemma load_succeeds_iff_witness :
  exists ix j cs ds,
    Sample.saved3 !! index_path (new (s "./vector_db") 4)
    = Some (FaissFile ix)
    /\ Sample.saved3 !! metadata_path (new (s "./vector_db") 4)
       = Some (JsonFile j)
    /\ is_Some (j !! s "total_documents")
    /\ is_Some (j !! s "total_chunks")
    /\ Sample.saved3 !! chunks_path (new (s "./vector_db") 4)
       = Some (PickleFile {| p_chunks := Some cs; p_documents := Some ds |})
    /\ Sample.db3
       = {| db_path := db_path (new (s "./vector_db") 4);
            embedding_dimension :=
              embedding_dimension (new (s "./vector_db") 4);
            index := Some ix; documents := ds; chunks := cs |}.
Proof.
  apply (proj1 (load_succeeds_iff (new (s "./vector_db") 4) Sample.saved3
                  Sample.db3)).
  vm_compute. reflexivity.
Defined.

(** [load] when a file is missing. *)
Lemma load_missing db fs :
  fs !! index_path db = None \/ fs !! metadata_path db = None
  \/ fs !! chunks_path db = None ->
  load db fs = (db, false).
Proof.
  intros H. unfold load, exists_. simpl forallb.
  destruct H as [E | [E | E]]; rewrite E;
    rewrite (bool_decide_eq_false_2 (is_Some None))
      by (intros [? ?]; discriminate);
    rewrite ?andb_false_r; reflexivity.
Qed.

(** [load] when the three files are there, in terms of their contents. *)
Lemma load_present db fs fi fm fc :
  fs !! index_path db = Some fi ->
  fs !! metadata_path db = Some fm ->
  fs !! chunks_path db = Some fc ->
  load db fs
  = match read_index fi with
    | None => (db, false)
    | Some ix =>
        match json_load fm with
        | None => (set_index db (Some ix), false)
        | Some j =>
            match pickle_load fc with
            | None => (set_index db (Some ix), false)
            | Some data =>
                match p_chunks data with
                | None => (set_index db (Some ix), false)
                | Some cs =>
                    match p_documents data with
                    | None =>
                        (set_chunks (set_index db (Some ix)) cs, false)
                    | Some ds =>
                        (set_documents
                           (set_chunks (set_index db (Some ix)) cs) ds,
                         match j !! s "total_documents",
                               j !! s "total_chunks" with
                         | Some _, Some _ => true
                         | _, _ => false
                         end)
                    end
                end
            end
        end
    end.
Proof.
  intros Ei Em Ec. unfold load, exists_. simpl forallb.
  rewrite Ei, Em, Ec.
  rewrite !(bool_decide_eq_true_2 (is_Some (Some _))) by eauto.
  cbn [andb negb mbind option_bind].
  destruct (read_index fi) as [ix|]; [|reflexivity]. cbv zeta.
  change (metadata_path (set_index db (Some ix))) with (metadata_path db).
  change (chunks_path (set_index db (Some ix))) with (chunks_path db).
  rewrite Em, Ec. cbn [mbind option_bind].
  destruct (json_load fm) as [j|]; [|reflexivity].
  destruct (pickle_load fc) as [data|]; [|reflexivity].
  destruct (p_chunks data) as [cs|]; [|reflexivity].
  destruct (p_documents data) as [ds|]; [|reflexivity].
  destruct (j !! s "total_documents"); destruct (j !! s "total_chunks");
    reflexivity.
Qed.

Lemma same_path_same_files db1 db :
  db_path db1 = db_path db ->
  index_path db1 = index_path db
  /\ metadata_path db1 = metadata_path db
  /\ chunks_path db1 = chunks_path db.
Proof.
  intros E. unfold index_path, metadata_path, chunks_path. now rewrite E.
Qed.

(** X12. [load] is idempotent, on success and on every kind of failure: a
    second load from the same storage leaves the object as the first one
    left it and returns the same flag. *)
Theorem load_twice (db : VectorDatabase) (fs : gmap str file) :
  load (load db fs).1 fs = load db fs.
Proof.
  destruct (same_path_same_files (load db fs).1 db
              (proj1 (load_paths db fs))) as [Hi [Hm Hc]].
  destruct (fs !! index_path db) as [fi|] eqn:Ei.
  2:{ rewrite (load_missing db fs) by auto. simpl.
      apply load_missing. auto. }
  destruct (fs !! metadata_path db) as [fm|] eqn:Em.
  2:{ rewrite (load_missing db fs) by auto. simpl.
      apply load_missing. auto. }
  destruct (fs !! chunks_path db) as [fc|] eqn:Ec.
  2:{ rewrite (load_missing db fs) by auto. simpl.
      apply load_missing. auto. }
  rewrite (load_present (load db fs).1 fs fi fm fc) by congruence.
  rewrite (load_present db fs fi fm fc Ei Em Ec).
  destruct (read_index fi) as [ix|]; [|reflexivity].
  destruct (json_load fm) as [j|]; [|reflexivity].
  destruct (pickle_load fc) as [data|]; [|reflexivity].
  destruct (p_chunks data) as [cs|]; [|reflexivity].
  destruct (p_documents data) as [ds|]; reflexivity.
Qed.

Lemma distinct_filenames_bounds (ds : list metadata) :
  distinct_filenames ds <= len ds
  /\ (ds <> [] -> 1 <= distinct_filenames ds).
Proof.
  unfold distinct_filenames, len. split.
  - induction ds as [|m ds IH]; [reflexivity|].
    rewrite fmap_cons, list_to_set_cons, size_union_alt, size_singleton.
    assert (Hsub :
              (size (list_to_set (filename <$> ds) ∖ {[filename m]}
                     : gset str)
               <= size (list_to_set (filename <$> ds) : gset str))%nat).
    { apply subseteq_size, subseteq_difference_l. reflexivity. }
    simpl length. lia.
  - destruct ds as [|m ds]; [congruence|]. intros _.
    rewrite fmap_cons, list_to_set_cons.
    assert (Hsub :
              (size ({[filename m]} : gset str)
               <= size ({[filename m]} ∪ list_to_set (filename <$> ds)
                        : gset str))%nat).
    { apply subseteq_size, union_subseteq_l. }
    rewrite size_singleton in Hsub. lia.
Qed.

(** X13. In an index state with [n > 0] aligned entries [get_stats] reports
    [n] chunks, [n] vectors, the dimension and the path given to the
    constructor, and a number of documents between 1 and [n]. *)
Theorem get_stats_of_aligned_state (db : VectorDatabase) (n : Z) :
  has_entries db n -> 0 < n ->
  exists total_documents,
    get_stats db
    = Stats total_documents n n (embedding_dimension db) (db_path db)
    /\ 1 <= total_documents <= n.
Proof.
  intros [Hv [Hc Hd]] Hn. unfold get_stats, vector_count in *.
  destruct (index db) as [ix|]; [|lia].
  exists (distinct_filenames (documents db)).
  rewrite Hv, Hc. split; [reflexivity|].
  destruct (distinct_filenames_bounds (documents db)) as [Hle Hge].
  split; [|lia]. apply Hge. intros E. rewrite E in Hd.
  unfold len in Hd. simpl in Hd. lia.
Qed.

Lemma get_stats_of_aligned_state_witness :
  exists total_documents,
    get_stats Sample.db3
    = Stats total_documents 3 3 (embedding_dimension Sample.db3)
        (db_path Sample.db3)
    /\ 1 <= total_documents <= 3.
Proof.
  apply (get_stats_of_aligned_state Sample.db3 3).
  - repeat split; reflexivity.
  - lia.
Defined.

(** X22. After a successful [load] the dimension that [add_documents]
    enforces is the one of the loaded index file, whatever dimension the
    constructor was given: vectors of the file's dimension are accepted and
    vectors of any other dimension, the constructor's included, make the
    call raise. *)
Theorem add_after_load_checks_file_dimension
        (db : VectorDatabase) (fs : gmap str file) (db' : VectorDatabase)
        (embeddings : ndarray) (cs : list str) (ms : list metadata) :
  load db fs = (db', true) ->
  exists ix,
    fs !! index_path db = Some (FaissFile ix)
    /\ index_dimension db' = d ix
    /\ embedding_dimension db' = embedding_dimension db
    /\ (ncols embeddings = d ix ->
        (add_documents db' embeddings cs ms).2 = Ok tt)
    /\ (ncols embeddings <> d ix ->
        (add_documents db' embeddings cs ms).2 = Raise AssertionError).
Proof.
  intros E. apply load_true_iff in E.
  destruct E as [ix [j [cs0 [ds0 [Ei [_ [_ [_ [_ ->]]]]]]]]].
  exists ix. split; [exact Ei|]. split; [reflexivity|].
  split; [reflexivity|].
  unfold add_documents, add. simpl. split; intros H.
  - rewrite H, Nat.eqb_refl. reflexivity.
  - destruct (Nat.eqb_spec (ncols embeddings) (d ix)); [contradiction|].
    reflexivity.
Qed.

Lemma add_after_load_checks_file_dimension_witness :
  exists ix,
    Sample.saved3 !! index_path (new (s "./vector_db") default_dimension)
    = Some (FaissFile ix)
    /\ index_dimension
         (load (new (s "./vector_db") default_dimension) Sample.saved3).1
       = d ix
    /\ embedding_dimension
         (load (new (s "./vector_db") default_dimension) Sample.saved3).1
       = embedding_dimension (new (s "./vector_db") default_dimension)
    /\ (ncols Sample.three_vectors = d ix ->
        (add_documents
           (load (new (s "./vector_db") default_dimension) Sample.saved3).1
           Sample.three_vectors Sample.three_chunks Sample.three_metas).2
        = Ok tt)
    /\ (ncols Sample.three_vectors <> d ix ->
        (add_documents
           (load (new (s "./vector_db") default_dimension) Sample.saved3).1
           Sample.three_vectors Sample.three_chunks Sample.three_metas).2
        = Raise AssertionError).
Proof.
  apply (add_after_load_checks_file_dimension
           (new (s "./vector_db") default_dimension) Sample.saved3).
  vm_compute. reflexivity.
Defined.

End PersistenceMore.

(** ** More about prompt assembly *)

Module LLMClientMore.
Import VectorDB LLMClient LLMClientFacts.
Import PyStrFacts.

Section Budget.
Variable count_tokens : str -> Z.

(** The parts collected so far are never dropped. *)
Lemma add_context_extends max_tokens relevant_chunks context_parts total :
  exists extra,
    (add_context count_tokens max_tokens relevant_chunks context_parts
       total).1 = context_parts ++ extra.
Proof.
  destruct (add_context_prefix count_tokens max_tokens relevant_chunks
              context_parts total) as [n [_ [E _]]].
  rewrite E. simpl. eauto.
Qed.

Lemma add_context_monotone low high relevant_chunks :
  low <= high ->
  forall context_parts total,
  exists extra,
    (add_context count_tokens high relevant_chunks context_parts total).1
    = (add_context count_tokens low relevant_chunks context_parts total).1
      ++ extra.
Proof.
  intros Hle. induction relevant_chunks as [|c rest IH];
    intros parts total; simpl.
  - exists []. now rewrite app_nil_r.
  - destruct (Z.ltb_spec low (total + count_tokens (format_chunk c)))
      as [Hstop | Hfit].
    + destruct (Z.ltb_spec high (total + count_tokens (format_chunk c))).
      * exists []. now rewrite app_nil_r.
      * simpl.
        destruct (add_context_extends high rest (parts ++ [format_chunk c])
                    (total + count_tokens (format_chunk c))) as [extra E].
        rewrite E, <- app_assoc. eauto.
    + destruct (Z.ltb_spec high (total + count_tokens (format_chunk c)));
        [lia|]. apply IH.
Qed.

Lemma sum_take_le (l : list Z) (n : nat) :
  Forall (fun x => 0 <= x) l -> sum (take n l) <= sum l.
Proof.
  intros H. revert n. induction H as [|x l Hx Hl IH]; intros [|n]; simpl;
    try lia.
  - assert (0 <= sum l) by (specialize (IH O); simpl in IH; exact IH). lia.
  - specialize (IH n). lia.
Qed.

Lemma costs_Forall_nonneg relevant_chunks :
  (forall text, 0 <= count_tokens text) ->
  Forall (fun x => 0 <= x) (costs count_tokens relevant_chunks).
Proof.
  intros Hc. unfold costs. apply Forall_forall. intros x Hin.
  apply list_elem_of_In, in_map_iff in Hin. destruct Hin as [c [<- _]].
  apply Hc.
Qed.

End Budget.

(** X14. Raising the token budget never removes a chunk from the prompt:
    for the same query, chunks and token counter, the context selected under
    the larger budget starts with the context selected under the smaller
    one. *)
Theorem select_context_monotone_in_budget
        (count_tokens : str -> Z) (query : str)
        (relevant_chunks : list SearchResult) (low high : Z) :
  low <= high ->
  exists extra,
    (select_context count_tokens query relevant_chunks high).1
    = (select_context count_tokens query relevant_chunks low).1 ++ extra.
Proof.
  intros Hle. unfold select_context.
  apply add_context_monotone, Hle.
Qed.

Lemma select_context_monotone_in_budget_witness :
  exists extra,
    (select_context len (s "What is grace?") Sample.ranked 700).1
    = (select_context len (s "What is grace?") Sample.ranked 650).1 ++ extra.
Proof.
  apply (select_context_monotone_in_budget len (s "What is grace?")
           Sample.ranked 650 700).
  lia.
Defined.

(** X15. When the token counter is non-negative and the budget covers the
    preamble, the query and all formatted chunks, every supplied chunk is
    included, in the given order, and each appears in the prompt under its
    source header. *)
Theorem create_rag_prompt_includes_all
        (count_tokens : str -> Z) (query : str)
        (relevant_chunks : list SearchResult) (max_context_tokens : Z) :
  (forall text, 0 <= count_tokens text) ->
  count_tokens (system_prompt ++ query)
    + sum (costs count_tokens relevant_chunks) <= max_context_tokens ->
  select_context count_tokens query relevant_chunks max_context_tokens
  = (map format_chunk relevant_chunks,
     count_tokens (system_prompt ++ query)
       + sum (costs count_tokens relevant_chunks))
  /\ Forall (fun c =>
               contains
                 (create_rag_prompt count_tokens query relevant_chunks
                    max_context_tokens)
                 (format_chunk c))
            relevant_chunks.
Proof.
  intros Hc Hbudget.
  destruct (add_context_prefix count_tokens max_context_tokens
              relevant_chunks [] (count_tokens (system_prompt ++ query)))
    as [n [Hn [E [_ Hstop]]]].
  assert (Hall : n = length relevant_chunks).
  { destruct (Nat.eq_dec n (length relevant_chunks)) as [|Hne];
      [assumption|].
    specialize (Hstop ltac:(lia)).
    pose proof (sum_take_le (costs count_tokens relevant_chunks) (S n)
                  (costs_Forall_nonneg count_tokens relevant_chunks Hc)).
    lia. }
  assert (Es : select_context count_tokens query relevant_chunks
                 max_context_tokens
               = (map format_chunk relevant_chunks,
                  count_tokens (system_prompt ++ query)
                    + sum (costs count_tokens relevant_chunks))).
  { unfold select_context. rewrite E. simpl. subst n.
    rewrite !firstn_all2; [reflexivity | |]; try lia.
    unfold costs. rewrite length_map. lia. }
  split; [exact Es|].
  apply Forall_forall. intros c Hin.
  apply list_elem_of_In, in_split in Hin. destruct Hin as [l1 [l2 ->]].
  unfold create_rag_prompt. rewrite Es. cbn [fst].
  exists (system_prompt ++ concat (map format_chunk l1)),
    (concat (map format_chunk l2) ++ nl ++ nl ++ s "Question: " ++ query
       ++ nl ++ nl ++ s "Answer:").
  rewrite map_app, concat_app. cbn [map concat].
  rewrite <- !app_assoc. reflexivity.
Qed.

Lemma create_rag_prompt_includes_all_witness :
  select_context len (s "What is grace?") Sample.ranked 3000
  = (map format_chunk Sample.ranked,
     len (system_prompt ++ s "What is grace?")
       + sum (costs len Sample.ranked))
  /\ Forall (fun c =>
               contains
                 (create_rag_prompt len (s "What is grace?") Sample.ranked
                    3000)
                 (format_chunk c))
            Sample.ranked.
Proof.
  apply (create_rag_prompt_includes_all len (s "What is grace?")
           Sample.ranked 3000).
  - intros text. unfold len. lia.
  - vm_compute. discriminate.
Defined.

End LLMClientMore.

(** ** The pipeline *)

Module DocumentPipelineFacts.
Import PyStr Chunker PyStrFacts ChunkerFacts StripFacts.
Import Faiss VectorDB PDFProcessor PDFProcessorFacts DocumentPipeline.

(** A text that starts with a visible character gives at least one chunk. *)
Lemma chunk_text_nonempty (text : str) (chunk_size overlap : Z) :
  text <> [] -> strip text = text -> 1 <= chunk_size -> 0 <= overlap ->
  chunk_text text chunk_size overlap <> [].
Proof.
  intros Hne Hs Hsz Ho.
  destruct (Z.le_gt_cases (len text) chunk_size) as [Hshort | Hlong].
  - destruct (chunk_text_short text chunk_size overlap Hshort)
      as [_ [-> _]]. discriminate.
  - destruct text as [|c r]; [congruence|].
    assert (Hc : isspace c = false).
    { apply (strip_head (c :: r)). rewrite Hs. reflexivity. }
    destruct (chunk_text_trace (c :: r) chunk_size overlap Hlong)
      as [ws [Hf [-> _]]].
    destruct (Hf (S (length (c :: r))) ltac:(lia)) as [Et _].
    destruct (chunk_trace_covers (c :: r) chunk_size overlap _ Ho Hsz 0 ws
                ltac:(lia) Et 0)
      as [a [b [Hin [Ha [Hai [Hib Hb]]]]]].
    { unfold len. simpl length. lia. }
    destruct (window_chunk_covers (c :: r) a b 0 c Ha Hai Hib Hb
                eq_refl Hc) as [p [Hp _]].
    rewrite emit_all_pieces. intros E.
    assert (Hin' : In (strip (slice (c :: r) a b))
                      (flat_map (piece (c :: r)) ws)).
    { apply in_flat_map. exists (a, b). split; [exact Hin|].
      rewrite Hp. left; reflexivity. }
    rewrite E in Hin'. destruct Hin'.
Qed.

Lemma process_all_pdfs_texts dir listing :
  Forall (fun doc => doc_text doc <> [] /\ strip (doc_text doc) = doc_text doc)
         (process_all_pdfs dir listing).
Proof.
  destruct listing as [entries|]; [|constructor]. simpl.
  apply Forall_forall. intros doc Hin.
  apply list_elem_of_In, in_flat_map in Hin.
  destruct Hin as [[name file] [_ Hd]].
  unfold process_pdf in Hd. simpl in Hd.
  destruct (truthy (extract_text_from_pdf file)) eqn:Ht; [|destruct Hd].
  destruct Hd as [<- | []]. simpl.
  split; [destruct (extract_text_from_pdf file); discriminate|].
  destruct file as [pages|]; simpl in *; [|discriminate].
  apply clean_text_normalized.
Qed.

Lemma chunk_documents_nonempty chunk_size overlap docs :
  1 <= chunk_size -> 0 <= overlap ->
  docs <> [] ->
  Forall (fun doc => doc_text doc <> [] /\ strip (doc_text doc) = doc_text doc)
         docs ->
  (chunk_documents chunk_size overlap docs).*1 <> [].
Proof.
  intros Hsz Ho Hne Hall. destruct docs as [|doc rest]; [congruence|].
  inversion Hall as [|? ? [Ht Hs] _]; subst.
  pose proof (chunk_text_nonempty (doc_text doc) chunk_size overlap
                Ht Hs Hsz Ho) as Hc.
  unfold chunk_documents. simpl. unfold chunk_document at 1.
  destruct (chunk_text (doc_text doc) chunk_size overlap) as [|c cs];
    [congruence|].
  discriminate.
Qed.

(** The loop of [preview_chunks]. *)
Lemma preview_loop_spec filename max_chunks (all : list (str * metadata)) :
  forall entries i acc,
  0 <= i -> entries = drop (Z.to_nat i) all ->
  exists new,
    preview_loop filename max_chunks i entries acc = acc ++ new
    /\ len (acc ++ new) <= Z.max (len acc + 1) max_chunks
    /\ Forall (fun p =>
                 exists (idx : nat) chunk m,
                   preview_index p = Z.of_nat idx
                   /\ all !! idx = Some (chunk, m)
                   /\ preview_filename p = VectorDB.filename m
                   /\ preview_chunk_id p = chunk_id m
                   /\ preview_chunk_length p = len chunk
                   /\ chunk_preview p = shorten chunk
                   /\ match filename with
                      | Some f => f = [] \/ preview_filename p = f
                      | None => True
                      end) new.
Proof.
  induction entries as [|[chunk m] rest IH]; intros i acc Hi Hd.
  - exists []. simpl. rewrite app_nil_r. repeat split; [lia | constructor].
  - assert (Hl : all !! Z.to_nat i = Some (chunk, m)).
    { rewrite <- (Nat.add_0_r (Z.to_nat i)), <- lookup_drop, <- Hd.
      reflexivity. }
    assert (Hrest : rest = drop (Z.to_nat (i + 1)) all).
    { pose proof (drop_S all (chunk, m) (Z.to_nat i) Hl) as Hds.
      rewrite <- Hd in Hds. injection Hds as ->. f_equal. lia. }
    simpl.
    set (skip := match filename with
                 | Some f => truthy f
                             && negb (bool_decide (VectorDB.filename m = f))
                 | None => false
                 end).
    destruct skip eqn:Hskip.
    + destruct (IH (i + 1) acc ltac:(lia) Hrest) as [new [E [L F]]].
      exists new. auto.
    + set (p := {| preview_index := i;
                   preview_filename := VectorDB.filename m;
                   preview_chunk_id := chunk_id m;
                   chunk_preview := shorten chunk;
                   preview_chunk_length := len chunk |}).
      assert (Hp : exists (idx : nat) chunk0 m0,
                 preview_index p = Z.of_nat idx
                 /\ all !! idx = Some (chunk0, m0)
                 /\ preview_filename p = VectorDB.filename m0
                 /\ preview_chunk_id p = chunk_id m0
                 /\ preview_chunk_length p = len chunk0
                 /\ chunk_preview p = shorten chunk0
                 /\ match filename with
                    | Some f => f = [] \/ preview_filename p = f
                    | None => True
                    end).
      { exists (Z.to_nat i), chunk, m. simpl.
        repeat split; try reflexivity; try lia; try assumption.
        unfold skip in Hskip. destruct filename as [f|]; [|exact I].
        destruct f as [|c f']; [left; reflexivity|]. right.
        simpl in Hskip. apply negb_false_iff, bool_decide_eq_true in Hskip.
        exact Hskip. }
      destruct (Z.leb_spec max_chunks (len (acc ++ [p]))) as [Hfull | Hmore].
      * exists [p]. split; [reflexivity|]. split.
        -- unfold len in *. rewrite !length_app in *.
           simpl length in *. lia.
        -- constructor; [exact Hp | constructor].
      * destruct (IH (i + 1) (acc ++ [p]) ltac:(lia) Hrest)
          as [new [E [L F]]].
        exists (p :: new). split; [rewrite E, <- app_assoc; reflexivity|].
        split.
        -- unfold len in *. rewrite !length_app in *.
           simpl length in *. lia.
        -- constructor; [exact Hp | exact F].
Qed.

Lemma add_documents_succeeds db embeddings cs ms :
  ncols embeddings = index_dimension db ->
  exists db', add_documents db embeddings cs ms = (db', Ok tt).
Proof.
  intros Hd. unfold add_documents, index_dimension in *.
  destruct (index db) as [ix|] eqn:Eix; simpl; rewrite ?Eix; unfold add;
    simpl; rewrite Hd, Nat.eqb_refl; eauto.
Qed.

Lemma shorten_length chunk : len (shorten chunk) <= 203.
Proof.
  unfold shorten. destruct (Z.ltb_spec 200 (len chunk)); [|lia].
  rewrite len_app, slice_length by lia. unfold len. simpl. lia.
Qed.

End DocumentPipelineFacts.

Module DocumentPipelineSpec.
Import PyStr Chunker PyStrFacts.
Import Faiss VectorDB PDFProcessor DocumentPipeline DocumentPipelineFacts.
Import PersistenceFacts.

(** X16. Every record that the pipeline builds for a chunk names the
    document the chunk was cut from: file name, path and document length are
    that document's, [total_chunks] is the number of its chunks, [chunk_id]
    is the position of the chunk among them (from 0), and [chunk_length] is
    the length of the chunk text. *)
Theorem chunk_documents_metadata
        (chunk_size overlap : Z) (docs : list document) :
  Forall (fun r : str * metadata =>
            exists doc (i : nat),
              In doc docs
              /\ filename r.2 = doc_filename doc
              /\ filepath r.2 = doc_filepath doc
              /\ document_length r.2 = doc_length doc
              /\ total_chunks r.2
                 = len (chunk_text (doc_text doc) chunk_size overlap)
              /\ chunk_id r.2 = Z.of_nat i
              /\ 0 <= chunk_id r.2 < total_chunks r.2
              /\ chunk_text (doc_text doc) chunk_size overlap !! i = Some r.1
              /\ chunk_length r.2 = len r.1)
         (chunk_documents chunk_size overlap docs).
Proof.
  apply Forall_forall. intros r Hin.
  apply list_elem_of_In, in_flat_map in Hin. destruct Hin as [doc [Hd Hr]].
  unfold chunk_document in Hr.
  apply list_elem_of_In, elem_of_lookup_imap in Hr.
  destruct Hr as [i [chunk [-> Hl]]].
  exists doc, i. simpl. repeat split; try assumption; try lia.
  apply lookup_lt_Some in Hl. unfold len. lia.
Qed.

(** X17. A run of [process_and_index_documents] on an aligned index, with an
    embedding model that returns one vector of the index's dimension per
    text and with [chunk_size >= 1], [overlap >= 0] after defaults: when no
    document has text the object and the storage are untouched; otherwise
    every chunk of every document is added with its metadata, the stores
    stay aligned, the database is saved, and a new object with the same path
    and dimension loads it and reports the same statistics. *)
Theorem process_and_index_documents_result
        (encode : list str -> ndarray) (cfg : config)
        (pdf_dir : str) (listing : option (list (str * pdf)))
        (db : VectorDatabase) (fs : gmap str file)
        (chunk_size chunk_overlap : option Z) (n : Z) :
  (forall texts,
      ncols (encode texts) = index_dimension db
      /\ length (rows (encode texts)) = length texts) ->
  has_entries db n ->
  1 <= or_default chunk_size (CHUNK_SIZE cfg) ->
  0 <= or_default chunk_overlap (CHUNK_OVERLAP cfg) ->
  let docs := process_all_pdfs pdf_dir listing in
  let records :=
    chunk_documents (or_default chunk_size (CHUNK_SIZE cfg))
      (or_default chunk_overlap (CHUNK_OVERLAP cfg)) docs in
  let run :=
    process_and_index_documents encode cfg pdf_dir listing db fs
      chunk_size chunk_overlap in
  (docs = [] -> run = (db, fs, NoDocuments))
  /\ (docs <> [] ->
      run.2 = Indexed
      /\ records <> []
      /\ has_entries run.1.1 (n + len records)
      /\ chunks run.1.1 = chunks db ++ records.*1
      /\ documents run.1.1 = documents db ++ records.*2
      /\ run.1.2 = save run.1.1 fs
      /\ (load (new (db_path db) (embedding_dimension db)) run.1.2).2 = true
      /\ get_stats
           (load (new (db_path db) (embedding_dimension db)) run.1.2).1
         = get_stats run.1.1).
Proof.
  intros Henc [Hv [Hc Hd]] Hsz Hov docs records run.
  split.
  - intros E. unfold run, process_and_index_documents. fold docs.
    rewrite E. reflexivity.
  - intros Hne.
    pose proof (chunk_documents_nonempty _ _ docs Hsz Hov Hne
                  (process_all_pdfs_texts pdf_dir listing)) as Hrec.
    fold records in Hrec.
    destruct (Henc records.*1) as [Hdim Hrows].
    destruct (add_documents_succeeds db (encode records.*1) records.*1
                records.*2 Hdim) as [db' Ea].
    assert (Erun : run = (db', save db' fs, Indexed)).
    { unfold run, process_and_index_documents. cbv zeta.
      fold docs. fold records.
      destruct docs as [|d ds] eqn:Ed; [congruence|].
      destruct (records.*1) as [|c cs] eqn:Er; [congruence|].
      rewrite Ea. reflexivity. }
    rewrite Erun. cbn [fst snd].
    destruct (VectorDBMore.add_documents_ok_stores _ _ _ _ _ Ea)
      as [Ev [Ec Ed]].
    destruct (add_documents_ok_inv _ _ _ _ _ Ea) as [Ep [Edim [ix Eix]]].
    assert (Hlen1 : len records.*1 = len records)
      by (unfold len; now rewrite length_fmap).
    assert (Hlen2 : len records.*2 = len records)
      by (unfold len; now rewrite length_fmap).
    split; [reflexivity|]. split.
    { intros E. rewrite E in Hrec. apply Hrec. reflexivity. }
    split.
    { repeat split.
      - rewrite Ev. unfold len in *. lia.
      - rewrite Ec, len_app. lia.
      - rewrite Ed, len_app. lia. }
    split; [exact Ec|]. split; [exact Ed|]. split; [reflexivity|].
    rewrite <- Ep, <- Edim.
    rewrite (load_after_save db' fs ix _ Eix). cbn [fst snd].
    split; [reflexivity|].
    unfold get_stats. simpl. rewrite Eix. reflexivity.
Qed.

Lemma process_and_index_documents_result_witness :
  let run :=
    process_and_index_documents Fixtures.encode4 default_config
      (s "./pdfs") (Some Fixtures.listing) (new (s "./vector_db") 4) ∅
      (Some 40) (Some 5) in
  let records :=
    chunk_documents 40 5
      (process_all_pdfs (s "./pdfs") (Some Fixtures.listing)) in
  run.2 = Indexed
  /\ records <> []
  /\ has_entries run.1.1 (0 + len records)
  /\ chunks run.1.1 = chunks (new (s "./vector_db") 4) ++ records.*1
  /\ documents run.1.1 = documents (new (s "./vector_db") 4) ++ records.*2
  /\ run.1.2 = save run.1.1 ∅
  /\ (load (new (s "./vector_db") 4) run.1.2).2 = true
  /\ get_stats (load (new (s "./vector_db") 4) run.1.2).1
     = get_stats run.1.1.
Proof.
  apply (proj2 (process_and_index_documents_result Fixtures.encode4
                  default_config (s "./pdfs") (Some Fixtures.listing)
                  (new (s "./vector_db") 4) ∅ (Some 40) (Some 5) 0
                  (fun texts => conj eq_refl (length_map _ texts))
                  (conj eq_refl (conj eq_refl eq_refl))
                  ltac:(simpl; lia) ltac:(simpl; lia))).
  vm_compute. discriminate.
Defined.

(** The documents and the chunks of the sample directory. *)
Example sample_directory_chunks :
  map doc_filename (process_all_pdfs (s "./pdfs") (Some Fixtures.listing))
  = [s "grace.pdf"; s "FAITH.PDF"]
  /\ (chunk_documents 40 5
        (process_all_pdfs (s "./pdfs") (Some Fixtures.listing))).*1
     = [ s "The grace of God is free.";
         s "free. 12It is given to the undeserving.";
         s "ving. Who can earn it?";
         s "n it?"; s "it?"; s "it?"; s "t?"; s "?";
         s "Faith comes by hearing." ].
Proof. split; vm_compute; reflexivity. Qed.

(** X21. [search_documents] answers the empty list on an empty or absent
    index whatever the embedding model does; on an index with [n] aligned
    entries, with a model that returns one vector of the index's dimension
    for the query and with [num_results > 0], it returns exactly
    [min(num_results, n)] results, best score first. *)
Theorem search_documents_result
        (encode : list str -> ndarray) (db : VectorDatabase)
        (query : str) (num_results n : Z) :
  (vector_count db = 0 ->
   search_documents encode db query num_results = Ok [])
  /\ (has_entries db n ->
      (forall texts,
          ncols (encode texts) = index_dimension db
          /\ length (rows (encode texts)) = length texts
          /\ Forall (fun row => length row = ncols (encode texts))
                    (rows (encode texts))) ->
      0 < num_results ->
      exists rs,
        search_documents encode db query num_results = Ok rs
        /\ len rs = Z.min num_results n
        /\ descending (similarity_score <$> rs)).
Proof.
  split.
  - unfold vector_count, search_documents.
    destruct (index db) as [ix|]; [|reflexivity].
    intros ->. reflexivity.
  - intros Hn Henc Hk.
    destruct (Henc [query]) as [Hdim [Hrows Hall]].
    destruct (rows (encode [query])) as [|q rest] eqn:Eq;
      [simpl in Hrows; lia|].
    inversion Hall as [|? ? Hq _]; subst.
    assert (Hfit : query_fits db q).
    { intros ix Eix. rewrite Hq, Hdim. unfold index_dimension.
      now rewrite Eix. }
    destruct (VectorDBMore.search_ranked db q num_results n Hn Hfit Hk)
      as [rs [Es [Hl [Hd _]]]].
    exists rs. split; [|auto].
    rewrite <- Es. unfold search_documents, search. rewrite Eq.
    destruct (index db) as [ix|]; [|reflexivity].
    destruct (ntotal ix =? 0); reflexivity.
Qed.

Lemma search_documents_result_witness :
  search_documents Fixtures.encode4 (new (s "./vector_db") 4) (s "grace") 2
  = Ok []
  /\ exists rs,
       search_documents Fixtures.encode4 Sample.db3 (s "grace") 2 = Ok rs
       /\ len rs = Z.min 2 3
       /\ descending (similarity_score <$> rs).
Proof.
  split.
  - apply (proj1 (search_documents_result Fixtures.encode4
                    (new (s "./vector_db") 4) (s "grace") 2 0)).
    reflexivity.
  - refine (proj2 (search_documents_result Fixtures.encode4 Sample.db3
                     (s "grace") 2 3) _ _ _).
    + repeat split; reflexivity.
    + intros texts. split; [reflexivity|]. split; [apply length_map|].
      apply Forall_forall. intros row Hin.
      apply list_elem_of_In, in_map_iff in Hin.
      destruct Hin as [t [<- _]]. reflexivity.
    + lia.
Defined.

(** X18. [preview_chunks] returns at most [max(1, max_chunks)] previews:
    one even for [max_chunks <= 0].  Each preview describes one stored
    position: its index, the file name and chunk id of the metadata there,
    the length of the chunk there, and the chunk itself or its first 200
    characters followed by an ellipsis, 203 characters at most; with a
    non-empty file name as filter, only that file's chunks are previewed. *)
Theorem preview_chunks_bounded
        (db : VectorDatabase) (fs : gmap str file)
        (filename : option str) (max_chunks : Z) :
  let r := preview_chunks db fs filename max_chunks in
  len r.2 <= Z.max 1 max_chunks
  /\ Forall (fun p =>
               exists (idx : nat) chunk m,
                 preview_index p = Z.of_nat idx
                 /\ chunks r.1 !! idx = Some chunk
                 /\ documents r.1 !! idx = Some m
                 /\ preview_filename p = VectorDB.filename m
                 /\ preview_chunk_id p = chunk_id m
                 /\ preview_chunk_length p = len chunk
                 /\ chunk_preview p = shorten chunk
                 /\ len (chunk_preview p) <= 203
                 /\ match filename with
                    | Some f => f = [] \/ preview_filename p = f
                    | None => True
                    end) r.2.
Proof.
  cbv zeta. unfold preview_chunks.
  set (st := match chunks db with [] => load db fs | _ => (db, true) end).
  destruct st as [db1 loaded]. destruct loaded; cbn [fst snd].
  2:{ split; [unfold len; simpl; lia | constructor]. }
  destruct (preview_loop_spec filename max_chunks
              (zip (chunks db1) (documents db1))
              (zip (chunks db1) (documents db1)) 0 [] ltac:(lia) eq_refl)
    as [new [E [L F]]].
  rewrite E. simpl app in *. split; [unfold len in *; simpl in L; lia|].
  eapply Forall_impl; [exact F|].
  intros p [idx [chunk [m [Hi [Hl [H1 [H2 [H3 [H4 H5]]]]]]]]].
  apply lookup_zip_with_Some in Hl.
  destruct Hl as [c' [m' [Epair [Hc Hm]]]]. injection Epair as <- <-.
  exists idx, chunk, m. repeat split; try assumption.
  rewrite H4. apply shorten_length.
Qed.

End DocumentPipelineSpec.

(** ** The tail of the chunking loop *)

Module ChunkerTail.
Import PyStr Chunker PyStrFacts ChunkerFacts.

(** With an overlap of at least one character the loop does not stop when a
    window reaches the end of the text: it restarts inside the overlap and
    moves on one position at a time, so its last window is the last
    character alone. *)
Lemma chunk_trace_last text chunk_size overlap fuel :
  1 <= overlap -> 1 <= chunk_size ->
  forall start ws,
  0 <= start -> start < len text ->
  chunk_trace fuel text chunk_size overlap start = Some ws ->
  last ws = Some (len text - 1, len text).
Proof.
  intros Ho Hsz. induction fuel as [|fuel IH]; intros start ws H0 Hlt E;
    [discriminate|].
  simpl in E.
  destruct (Z.ltb_spec start (len text)) as [_ | Hge]; [|lia].
  pose proof (window_end_bounds text chunk_size start H0 Hlt Hsz) as Hw.
  pose proof (next_start_gt start (window_end text chunk_size start)
                overlap) as Hg.
  destruct (Z.leb_spec (len text)
              (next_start start (window_end text chunk_size start)
                 overlap)) as [Hend | Hmore].
  - injection E as <-. simpl. unfold next_start in Hend.
    destruct (Z.leb_spec (window_end text chunk_size start - overlap) start);
      [|lia].
    do 2 f_equal; lia.
  - destruct (chunk_trace fuel text chunk_size overlap _) as [ws'|] eqn:E';
      [|discriminate].
    injection E as <-.
    pose proof (IH (next_start start (window_end text chunk_size start)
                      overlap) ws' ltac:(lia) Hmore E') as Hl.
    rewrite last_cons, Hl. reflexivity.
Qed.

Lemma strip_single c : isspace c = false -> strip [c] = [c].
Proof.
  intros H. unfold strip, rstrip. simpl. rewrite H. simpl. now rewrite H.
Qed.

(** X19. On a text longer than [chunk_size] that ends in a visible
    character, with [chunk_size >= 1] and [overlap >= 1], the last chunk
    that [chunk_text] returns is that last character alone. *)
Theorem chunk_text_last_chunk_is_last_character
        (text : str) (chunk_size overlap : Z) (c : ascii) :
  1 <= overlap -> 1 <= chunk_size -> chunk_size < len text ->
  last text = Some c -> isspace c = false ->
  last (chunk_text text chunk_size overlap) = Some [c].
Proof.
  intros Ho Hsz Hlong Hlast Hc.
  destruct (chunk_text_trace text chunk_size overlap Hlong)
    as [ws [Hf [-> _]]].
  destruct (Hf (S (length text)) ltac:(lia)) as [Et _].
  pose proof (chunk_trace_last text chunk_size overlap _ Ho Hsz 0 ws
                ltac:(lia) ltac:(lia) Et) as Hl.
  apply last_Some in Hl. destruct Hl as [ws0 ->].
  apply last_Some in Hlast. destruct Hlast as [t0 ->].
  rewrite emit_all_pieces, flat_map_app. simpl flat_map.
  rewrite app_nil_r.
  assert (Ep : piece (t0 ++ [c]) (len (t0 ++ [c]) - 1, len (t0 ++ [c]))
               = [[c]]).
  { unfold piece. simpl fst. simpl snd.
    replace (len (t0 ++ [c]) - 1) with (len t0)
      by (rewrite len_app; unfold len; simpl; lia).
    replace (len (t0 ++ [c])) with (len t0 + len [c])
      by (now rewrite len_app).
    pose proof (slice_app_mid t0 [c] []) as Hs.
    change ([c] ++ []) with [c] in Hs.
    rewrite Hs, (strip_single c Hc). reflexivity. }
  rewrite Ep. apply last_snoc.
Qed.

Lemma chunk_text_last_chunk_is_last_character_witness :
  last (chunk_text (s "One. Two! Three? Four") 8 2) = Some [ "r"%char ].
Proof.
  apply (chunk_text_last_chunk_is_last_character
           (s "One. Two! Three? Four") 8 2 "r"%char);
    try lia; reflexivity.
Defined.

End ChunkerTail.

(** ** Cleaning a cleaned text *)

Module CleanTwice.
Import PyStr PyStrFacts StripFacts PDFProcessor PDFProcessorFacts.

Lemma split_lines_no_newline text :
  ~ In newline text -> split_lines text = [text].
Proof.
  induction text as [|c r IH]; intros Hn; [reflexivity|]. simpl.
  destruct (Ascii.eqb_spec c newline) as [-> | _].
  - exfalso. apply Hn. left; reflexivity.
  - rewrite IH; [reflexivity|]. intros H. apply Hn. right; exact H.
Qed.

Lemma sub_spaces_fixed text : forall in_run,
  Forall (fun c => isspace c = true -> c = " "%char) text ->
  single_spaced text ->
  (in_run = true -> forall c, head text = Some c -> isspace c = false) ->
  sub_spaces in_run text = text.
Proof.
  induction text as [|c r IH]; intros in_run Ha Hb Hc; [reflexivity|].
  inversion Ha as [|? ? Hsp Har]; subst. destruct Hb as [Hh Hr]. simpl.
  destruct (isspace c) eqn:Hx.
  - destruct in_run; [specialize (Hc eq_refl c eq_refl); congruence|].
    rewrite (Hsp eq_refl). f_equal. apply IH; try assumption.
    intros _ c2 E. destruct r as [|c2' r']; [discriminate|].
    injection E as ->. destruct (isspace c2) eqn:H2; [|reflexivity].
    exfalso. apply Hh. auto.
  - f_equal. apply IH; try assumption. discriminate.
Qed.

(** X20. Cleaning is stable only above the line threshold: a cleaned text
    of more than 10 characters is left as it is by a second [_clean_text],
    and a shorter one is erased by it. *)
Theorem clean_text_twice (text : str) :
  clean_text (clean_text text)
  = if 10 <? len (clean_text text) then clean_text text else [].
Proof.
  destruct (clean_text_normalized text) as [Hs [Ha Hb]].
  set (t := clean_text text) in *.
  assert (Hn : ~ In newline t).
  { intros Hin. rewrite Forall_forall in Ha.
    apply list_elem_of_In in Hin. specialize (Ha _ Hin eq_refl).
    discriminate. }
  unfold clean_text at 1, cleaned_lines.
  rewrite (split_lines_no_newline t Hn). simpl map. rewrite Hs.
  simpl List.filter. destruct (10 <? len t); simpl join; [|reflexivity].
  rewrite (sub_spaces_fixed t false Ha Hb); [exact Hs | discriminate].
Qed.

End CleanTwice.
